(** * memory-server: the tool dispatcher of [src/index.ts]

    A shallow embedding of the [CallToolRequestSchema] handler: the five
    tools [create_memory], [get_memory], [list_memories], [forget_memory]
    and [list_tags], the [default] branch and the [catch] boundary around
    them.  The handler is written against the interface of the Supabase
    client (a query is built, awaited, and answers [{ data, error }]); the
    module [Table] gives a reference Record Store behind that interface. *)

From Stdlib Require Import List String Ascii ZArith NArith Bool Arith Lia.
From Stdlib Require Import Sorting.Sorted Sorting.Permutation DecimalString.
Import ListNotations.

Set Warnings "-register-all".

Open Scope list_scope.
Open Scope string_scope.

(** ** Insertion sort, stable, by a boolean order *)

Section InsertionSort.
Context {A : Type} (leb : A -> A -> bool).

Fixpoint insert (x : A) (l : list A) : list A :=
  match l with
  | [] => [x]
  | y :: l' => if leb x y then x :: l else y :: insert x l'
  end.

Fixpoint sort (l : list A) : list A :=
  match l with
  | [] => []
  | x :: l' => insert x (sort l')
  end.
End InsertionSort.

(** ** JavaScript values as the handler sees them *)

Module JS.

(** A value that arrived as JSON: the tool arguments, a row of the store.
    A number is an integer here: the handler only tests a number for
    truthiness, prints it in a template literal and adds one to a count. *)
Inductive json : Type :=
| JNull
| JBool (b : bool)
| JNum (n : Z)
| JStr (s : string)
| JArr (items : list json)
| JObj (props : list (string * json)).

(** [None] is [undefined]. *)
Definition value : Type := option json.

(** The own properties of a plain object, in creation order. *)
Definition object : Type := list (string * json).

Definition undefined : value := None.
Definition null : value := Some JNull.

(** [o[k]] for an own property. *)
Fixpoint own (o : object) (k : string) : value :=
  match o with
  | [] => undefined
  | (k', v) :: o' => if (k' =? k)%string then Some v else own o' k
  end.

(** ToBoolean. *)
Definition truthy (v : value) : bool :=
  match v with
  | None => false
  | Some JNull => false
  | Some (JBool b) => b
  | Some (JNum n) => negb (n =? 0)%Z
  | Some (JStr s) => negb (s =? "")%string
  | Some (JArr _) => true
  | Some (JObj _) => true
  end.

(** [a || b]. *)
Definition or_else (a b : value) : value := if truthy a then a else b.

Definition string_of_Z (n : Z) : string := NilZero.string_of_int (Z.to_int n).

(** *** Number::toString for an integer

    A number is the double nearest to the integer written; its text is
    the shortest run of digits that reads back as that double, followed by
    zeros up to 21 digits and by an exponent beyond. *)

Definition nearest_double (n : Z) : Z :=
  let bits := (Z.log2 n + 1)%Z in
  if (bits <=? 53)%Z then n
  else
    let e := (bits - 53)%Z in
    let q := Z.shiftr n e in
    let r := (n - Z.shiftl q e)%Z in
    let half := Z.shiftl 1 (e - 1) in
    let q' := if (r <? half)%Z then q
              else if (half <? r)%Z then (q + 1)%Z
              else if Z.even q then q else (q + 1)%Z in
    Z.shiftl q' e.

Definition finite (n : Z) : bool :=
  (nearest_double (Z.abs n) <? 2 ^ 1024)%Z.

(** [v] reads back as the double [x], where [2^53 <= x]. *)
Definition reads_back (x v : Z) : bool :=
  let e := (Z.log2 x - 52)%Z in
  let m := Z.shiftr x e in
  let up := Z.shiftl 1 (e + 1) in
  let down := if (m =? 2 ^ 52)%Z then Z.shiftl 1 e else up in
  let d := (4 * (v - x))%Z in
  if Z.even m then ((- down <=? d)%Z && (d <=? up)%Z)%bool
  else ((- down <? d)%Z && (d <? up)%Z)%bool.

Definition width (n : Z) : Z := Z.of_nat (String.length (string_of_Z n)).

(** The digits [s] and the power of ten [p] of a text of [k] digits. *)
Definition candidate (x k : Z) : option (Z * Z) :=
  let p := (width x - k)%Z in
  if (p <? 0)%Z then None
  else
    let P := (10 ^ p)%Z in
    let s := (x / P)%Z in
    match reads_back x (s * P), reads_back x ((s + 1) * P) with
    | true, true =>
        let below := (x - s * P)%Z in
        let above := ((s + 1) * P - x)%Z in
        Some (if (below <? above)%Z then s
              else if (above <? below)%Z then (s + 1)%Z
              else if Z.even s then s else (s + 1)%Z, p)
    | true, false => Some (s, p)
    | false, true => Some ((s + 1)%Z, p)
    | false, false => None
    end.

Fixpoint shortest (fuel : nat) (x k : Z) : Z * Z :=
  match fuel with
  | O => (x, 0%Z)
  | S fuel' =>
      match candidate x k with
      | Some sp => sp
      | None => shortest fuel' x (k + 1)
      end
  end.

Fixpoint strip_zeros (fuel : nat) (s p : Z) : Z * Z :=
  match fuel with
  | O => (s, p)
  | S fuel' =>
      if ((s mod 10 =? 0)%Z && (0 <? s)%Z)%bool
      then strip_zeros fuel' (s / 10) (p + 1)
      else (s, p)
  end.

Fixpoint zeros (n : nat) : string :=
  match n with
  | O => ""
  | S n' => String "0" (zeros n')
  end.

Definition unsigned_text (n : Z) : string :=
  let x := nearest_double n in
  if (2 ^ 1024 <=? x)%Z then "Infinity"
  else if (x <? 2 ^ 53)%Z then string_of_Z x
  else
    let (s0, p0) := shortest 17 x 1 in
    let (s, p) := strip_zeros 400 s0 p0 in
    let digits := string_of_Z s in
    let n := (Z.of_nat (String.length digits) + p)%Z in
    if (n <=? 21)%Z then digits ++ zeros (Z.to_nat p)
    else
      match digits with
      | String d rest =>
          String d (match rest with EmptyString => "" | _ => "." ++ rest end)
          ++ "e+" ++ string_of_Z (n - 1)
      | EmptyString => ""
      end.

Definition Number_toString (n : Z) : string :=
  if (n <? 0)%Z then "-" ++ unsigned_text (- n) else unsigned_text n.

(** *** ToString *)

Definition cannot_convert : string := "Cannot convert object to primitive value".

(** ToString, as a template literal applies it to an interpolated value:
    the text on the left, or on the right the message of the TypeError it
    throws.  A plain object converts through the [toString] it inherits;
    one that has a [toString] of its own, which no JSON value can call,
    cannot be converted.  An array joins the texts of its elements. *)
Fixpoint json_to_string (v : json) : string + string :=
  match v with
  | JNull => inl "null"
  | JBool true => inl "true"
  | JBool false => inl "false"
  | JNum n => inl (Number_toString n)
  | JStr s => inl s
  | JArr items =>
      (fix join (l : list json) : string + string :=
         match l with
         | [] => inl ""
         | x :: rest =>
             match (match x with JNull => inl "" | _ => json_to_string x end) with
             | inl first =>
                 match rest with
                 | [] => inl first
                 | _ =>
                     match join rest with
                     | inl others => inl (first ++ "," ++ others)
                     | inr e => inr e
                     end
                 end
             | inr e => inr e
             end
         end) items
  | JObj props =>
      match own props "toString" with
      | Some _ => inr cannot_convert
      | None => inl "[object Object]"
      end
  end.

Definition to_string (v : value) : string + string :=
  match v with
  | None => inl "undefined"
  | Some j => json_to_string j
  end.

(** An object literal on its way through [JSON.stringify]: a member whose
    value is [undefined] is left out. *)
Fixpoint literal (fields : list (string * value)) : object :=
  match fields with
  | [] => []
  | (k, Some v) :: rest => (k, v) :: literal rest
  | (_, None) :: rest => literal rest
  end.

(** *** The text JSON.stringify(v, null, 2) gives to a value whose
    members are in the order of enumeration *)

Definition dquote : ascii := ascii_of_nat 34.
Definition newline : string := String (ascii_of_nat 10) "".

Definition hex_digit (n : nat) : ascii :=
  if (n <? 10)%nat then ascii_of_nat (48 + n) else ascii_of_nat (87 + n).

Definition quote_char (c : ascii) : string :=
  let n := nat_of_ascii c in
  if (n =? 34)%nat then String "\" (String dquote "")
  else if (n =? 92)%nat then "\\"
  else if (n =? 8)%nat then "\b"
  else if (n =? 9)%nat then "\t"
  else if (n =? 10)%nat then "\n"
  else if (n =? 12)%nat then "\f"
  else if (n =? 13)%nat then "\r"
  else if (n <? 32)%nat then
    "\u00" ++ String (hex_digit (n / 16)) (String (hex_digit (n mod 16)) "")
  else String c "".

Fixpoint quote_body (s : string) : string :=
  match s with
  | EmptyString => ""
  | String c s' => quote_char c ++ quote_body s'
  end.

Definition quote (s : string) : string :=
  String dquote (quote_body s ++ String dquote "").

Fixpoint spaces (n : nat) : string :=
  match n with
  | O => ""
  | S n' => String " " (spaces n')
  end.

Fixpoint stringify (indent : nat) (v : json) : string :=
  match v with
  | JNull => "null"
  | JBool true => "true"
  | JBool false => "false"
  | JNum n => if finite n then Number_toString n else "null"
  | JStr s => quote s
  | JArr items =>
      match items with
      | [] => "[]"
      | _ =>
          "[" ++ newline ++
          (fix go (l : list json) : string :=
             match l with
             | [] => ""
             | x :: rest =>
                 spaces (indent + 2) ++ stringify (indent + 2) x
                 ++ match rest with [] => "" | _ => "," ++ newline ++ go rest end
             end) items
          ++ newline ++ spaces indent ++ "]"
      end
  | JObj props =>
      match props with
      | [] => "{}"
      | _ =>
          "{" ++ newline ++
          (fix go (l : list (string * json)) : string :=
             match l with
             | [] => ""
             | (k, x) :: rest =>
                 spaces (indent + 2) ++ quote k ++ ": " ++ stringify (indent + 2) x
                 ++ match rest with [] => "" | _ => "," ++ newline ++ go rest end
             end) props
          ++ newline ++ spaces indent ++ "}"
      end
  end.

(** *** A plain object used as a map: [acc[tag] = (acc[tag] || 0) + 1] *)

(** An array index is the canonical decimal form of an integer between 0
    and 2^32 - 2; such keys are enumerated first, in ascending order. *)
Definition array_index (k : string) : option N :=
  match NilZero.uint_of_string k with
  | Some d =>
      let n := N.of_uint d in
      if ((NilZero.string_of_uint (N.to_uint n) =? k)%string
          && (n <=? 4294967294)%N)%bool
      then Some n else None
  | None => None
  end.

Definition is_index (k : string) : bool :=
  match array_index k with Some _ => true | None => false end.

Definition index_of (k : string) : N :=
  match array_index k with Some n => n | None => 0%N end.

Definition native (name : string) : string :=
  "function " ++ name ++ "() { [native code] }".

Definition Object_prototype_methods : list string :=
  [ "__defineGetter__"; "__defineSetter__"; "hasOwnProperty";
    "__lookupGetter__"; "__lookupSetter__"; "isPrototypeOf";
    "propertyIsEnumerable"; "toString"; "valueOf"; "toLocaleString" ].

Fixpoint mem (k : string) (l : list string) : bool :=
  match l with
  | [] => false
  | k' :: l' => (k' =? k)%string || mem k l'
  end.

(** What a plain object inherits from [Object.prototype] under key [k],
    given by the string it converts to in [(v || 0) + 1]: the source text
    of a built-in function, or ["[object Object]"] for [__proto__].  All of
    them are truthy. *)
Definition Object_prototype (k : string) : option string :=
  if (k =? "constructor")%string then Some (native "Object")
  else if mem k Object_prototype_methods then Some (native k)
  else if (k =? "__proto__")%string then Some "[object Object]"
  else None.

(** [o[k]], own or inherited. *)
Definition get (o : object) (k : string) : value :=
  match own o k with
  | Some v => Some v
  | None => option_map JStr (Object_prototype k)
  end.

Fixpoint replace (o : object) (k : string) (v : json) : object :=
  match o with
  | [] => []
  | (k', v') :: o' =>
      if (k' =? k)%string then (k', v) :: o' else (k', v') :: replace o' k v
  end.

(** [o[k] = v] for a primitive [v]: the [__proto__] setter ignores it, any
    other key becomes (or stays) an own property. *)
Definition set (o : object) (k : string) (v : json) : object :=
  if (k =? "__proto__")%string then o
  else match own o k with
       | Some _ => replace o k v
       | None => (o ++ [(k, v)])%list
       end.

(** [v + 1]: a number adds, any other value is converted to its text,
    which may throw, and [1] is appended. *)
Definition plus_one (v : json) : json + string :=
  match v with
  | JNum n => inl (JNum (n + 1))
  | JNull => inl (JNum 1)
  | JBool b => inl (JNum (if b then 2 else 1))
  | _ =>
      match json_to_string v with
      | inl text => inl (JStr (text ++ "1"))
      | inr e => inr e
      end
  end.

(** [(v || 0) + 1]. *)
Definition or_zero_plus_one (v : value) : json + string :=
  match or_else v (Some (JNum 0)) with
  | Some w => plus_one w
  | None => inl (JNum 1)
  end.

Definition index_leb (a b : string * json) : bool :=
  (index_of (fst a) <=? index_of (fst b))%N.

(** [Object.entries(o)]: array indices ascending, then the other keys in
    creation order. *)
Definition Object_entries (o : object) : list (string * json) :=
  (sort index_leb (filter (fun p => is_index (fst p)) o)
   ++ filter (fun p => negb (is_index (fst p))) o)%list.

(** An object holds one value per key: the first listed, which is the
    one [own] reads. *)
Fixpoint distinct (props : object) : object :=
  match props with
  | [] => []
  | (k, v) :: rest =>
      (k, v) :: filter (fun p => negb (fst p =? k)%string) (distinct rest)
  end.

(** The members of an object as they are enumerated, in every object of
    a value. *)
Fixpoint enumerated (v : json) : json :=
  match v with
  | JArr items => JArr (map enumerated items)
  | JObj props =>
      JObj (Object_entries
              (distinct
                 ((fix each (l : list (string * json)) : list (string * json) :=
                     match l with
                     | [] => []
                     | (k, x) :: rest => (k, enumerated x) :: each rest
                     end) props)))
  | _ => v
  end.

(** [JSON.stringify(v, null, 2)]. *)
Definition JSON_stringify (v : json) : string := stringify 0 (enumerated v).

(** The length of a string in UTF-16 code units, read off its UTF-8
    bytes: a byte that continues a character counts nothing, the first
    byte of a character beyond the basic plane counts two. *)
Fixpoint utf16_length (s : string) : nat :=
  match s with
  | EmptyString => 0
  | String c s' =>
      let n := nat_of_ascii c in
      (if (n <? 128)%nat then 1
       else if (n <? 192)%nat then 0
       else if (n <? 240)%nat then 1
       else 2) + utf16_length s'
  end.

(** [v.k] on a value that came from JSON, for the names the handler
    reads ([length], [tag], [memory_key], ...), none of which a prototype
    provides but the [length] of an array or a string.  Reading a property
    of [null] throws a TypeError, whose message is the result on the
    right. *)
Definition member (v : json) (k : string) : value + string :=
  match v with
  | JNull => inr ("Cannot read properties of null (reading '" ++ k ++ "')")
  | JObj o => inl (own o k)
  | JArr items =>
      inl (if (k =? "length")%string then Some (JNum (Z.of_nat (List.length items)))
           else undefined)
  | JStr s =>
      inl (if (k =? "length")%string then Some (JNum (Z.of_nat (utf16_length s)))
           else undefined)
  | _ => inl undefined
  end.

End JS.

(** ** The Supabase client, as the handler uses it *)

Module Postgrest.
Import JS.

Record PostgrestError : Type := mkError
  { message : string; details : string; hint : string; code : string }.

(** What awaiting a query resolves to: [{ data, error }]. *)
Record Response : Type := mkResponse
  { data : json; error : option PostgrestError }.

(** A filter keeps the text the client puts in the URL: [.eq(c, v)] sends
    [c=eq.${v}], [.not(c, op, v)] sends [c=not.op.${v}], [.or(f)] sends
    [or=(f)]. *)
Inductive Filter : Type :=
| FEq (column value : string)
| FNot (column operator value : string)
| FOr (filters : string).

Inductive Verb : Type :=
| Select
| Upsert (values : object) (onConflict : string)
| Delete.

Record Query : Type := mkQuery
  { q_table : string;
    q_verb : Verb;
    q_columns : option string;
    q_filters : list Filter;
    q_order : option (string * bool);
    q_single : bool }.

Definition from (table : string) : string := table.

Definition select (columns : string) (table : string) : Query :=
  mkQuery table Select (Some columns) [] None false.

Definition upsert (values : object) (onConflict : string) (table : string) : Query :=
  mkQuery table (Upsert values onConflict) None [] None false.

Definition delete (table : string) : Query :=
  mkQuery table Delete None [] None false.

Definition add_filter (f : Filter) (q : Query) : Query :=
  mkQuery (q_table q) (q_verb q) (q_columns q) (q_filters q ++ [f])%list
          (q_order q) (q_single q).

(** [.select()] after a write: return the rows written. *)
Definition returning (columns : string) (q : Query) : Query :=
  mkQuery (q_table q) (q_verb q) (Some columns) (q_filters q)
          (q_order q) (q_single q).

(** [.eq(column, value)] and [.not(column, operator, value)] put the text
    of the value in the URL; converting the value may throw. *)
Definition eq (column : string) (v : value) (q : Query) : Query + string :=
  match to_string v with
  | inl text => inl (add_filter (FEq column text) q)
  | inr e => inr e
  end.

Definition not_ (column operator : string) (v : value) (q : Query)
  : Query + string :=
  match to_string v with
  | inl text => inl (add_filter (FNot column operator text) q)
  | inr e => inr e
  end.

Definition or_ (filters : string) : Query -> Query :=
  add_filter (FOr filters).

Definition order (column : string) (ascending : bool) (q : Query) : Query :=
  mkQuery (q_table q) (q_verb q) (q_columns q) (q_filters q)
          (Some (column, ascending)) (q_single q).

Definition single (q : Query) : Query :=
  mkQuery (q_table q) (q_verb q) (q_columns q) (q_filters q) (q_order q) true.

(** The Record Store behind the client: awaiting a query answers it and
    may change the store. *)
Class RecordStore (S : Type) : Type :=
  { exec : Query -> S -> Response * S }.

End Postgrest.

Notation "x |> f" := (f x) (at level 68, left associativity, only parsing).

(** ** The handler of [CallToolRequestSchema] *)

Module Dispatcher.
Import JS Postgrest.

Record TextContent : Type := mkText { type : string; text : string }.

Record CallToolResult : Type := mkResult
  { content : list TextContent; isError : option bool }.

(** How a statement completes: normally, or by [throw new Error(message)]. *)
Inductive Completion (A : Type) : Type :=
| Normal (a : A)
| Throw (message : string).
Arguments Normal {A} a.
Arguments Throw {A} message.

(** The tools the [ListToolsRequestSchema] handler announces, each with its
    required arguments. *)
Definition tools : list (string * list string) :=
  [ ("create_memory", [ "user_id"; "key"; "content" ]);
    ("get_memory", [ "user_id"; "key" ]);
    ("list_memories", [ "user_id" ]);
    ("forget_memory", [ "user_id"; "key" ]);
    ("list_tags", [ "user_id" ]) ].

Definition tool_names : list string := map fst tools.

Section Handler.
Context {S : Type} `{RecordStore S}.

(** The store, and the queries awaited so far. *)
Record World : Type := mkWorld { store : S; calls : list Query }.

Definition M (A : Type) : Type := World -> Completion A * World.

Definition ret {A} (a : A) : M A := fun w => (Normal a, w).

Definition throw {A} (message : string) : M A := fun w => (Throw message, w).

Definition bind {A B} (m : M A) (k : A -> M B) : M B :=
  fun w =>
    match m w with
    | (Normal a, w') => k a w'
    | (Throw e, w') => (Throw e, w')
    end.

Definition await (q : Query) : M Response :=
  fun w =>
    let (r, s') := exec q (store w) in
    (Normal r, mkWorld s' (calls w ++ [q])%list).

Definition lift {A} (c : A + string) : M A :=
  match c with
  | inl a => ret a
  | inr e => throw e
  end.

Local Notation "x <- m ;; k" := (bind m (fun x => k))
  (at level 100, m at next level, right associativity).

(** [const { first, ... } = args]: [args] is an object or [undefined]. *)
Definition destructure (args : option object) (first : string) : M object :=
  match args with
  | Some a => ret a
  | None =>
      throw ("Cannot destructure property '" ++ first
             ++ "' of 'args' as it is undefined.")
  end.

Definition respond (payload : list (string * value)) : CallToolResult :=
  mkResult [ mkText "text" (JSON_stringify (JObj (literal payload))) ] None.

Definition str (s : string) : value := Some (JStr s).

Definition create_memory (args : option object) : M CallToolResult :=
  a <- destructure args "user_id" ;;
  let user_id := own a "user_id" in
  let key := own a "key" in
  let content := own a "content" in
  let tag := own a "tag" in
  let metadata := own a "metadata" in
  r <- await (from "memories"
              |> upsert (literal [ ("user_id", user_id);
                                   ("memory_key", key);
                                   ("content", content);
                                   ("tag", or_else tag null);
                                   ("metadata", or_else metadata null) ])
                        "user_id,memory_key"
              |> returning "*") ;;
  match error r with
  | Some e => throw ("Database error: " ++ message e)
  | None =>
      key_text <- lift (to_string key) ;;
      ret (respond
             [ ("status", str "success");
               ("message", str ("Memory '" ++ key_text ++ "' saved successfully"));
               ("key", key) ])
  end.

Definition get_memory (args : option object) : M CallToolResult :=
  a <- destructure args "user_id" ;;
  let user_id := own a "user_id" in
  let key := own a "key" in
  query <- lift (from "memories" |> select "*" |> eq "user_id" user_id) ;;
  query <- lift (query |> eq "memory_key" key) ;;
  r <- await (query |> single) ;;
  checked <- match error r with
             | Some e =>
                 if negb (code e =? "PGRST116")%string
                 then throw ("Database error: " ++ message e)
                 else ret tt
             | None => ret tt
             end ;;
  if negb (truthy (Some (data r))) then
    key_text <- lift (to_string key) ;;
    ret (respond
           [ ("status", str "not_found");
             ("message", str ("No memory found with key '" ++ key_text ++ "'")) ])
  else
    memory_key <- lift (member (data r) "memory_key") ;;
    content <- lift (member (data r) "content") ;;
    tag <- lift (member (data r) "tag") ;;
    metadata <- lift (member (data r) "metadata") ;;
    created_at <- lift (member (data r) "created_at") ;;
    updated_at <- lift (member (data r) "updated_at") ;;
    ret (respond
           [ ("key", memory_key);
             ("content", content);
             ("tag", tag);
             ("metadata", metadata);
             ("created_at", created_at);
             ("updated_at", updated_at) ]).

Definition list_memories (args : option object) : M CallToolResult :=
  a <- destructure args "user_id" ;;
  let user_id := own a "user_id" in
  let tag := own a "tag" in
  let search := own a "search" in
  query <- lift (from "memories"
                 |> select "memory_key, content, tag, created_at, updated_at"
                 |> eq "user_id" user_id) ;;
  let query := query |> order "updated_at" false in
  query <- (if truthy tag then lift (query |> eq "tag" tag) else ret query) ;;
  query <- (if truthy search then
              first <- lift (to_string search) ;;
              second <- lift (to_string search) ;;
              ret (query |> or_ ("memory_key.ilike.%" ++ first
                                 ++ "%,content.ilike.%" ++ second ++ "%"))
            else ret query) ;;
  r <- await query ;;
  match error r with
  | Some e => throw ("Database error: " ++ message e)
  | None =>
      count <- lift (member (data r) "length") ;;
      ret (respond [ ("count", count); ("memories", Some (data r)) ])
  end.

Definition forget_memory (args : option object) : M CallToolResult :=
  a <- destructure args "user_id" ;;
  let user_id := own a "user_id" in
  let key := own a "key" in
  query <- lift (from "memories" |> delete |> eq "user_id" user_id) ;;
  query <- lift (query |> eq "memory_key" key) ;;
  r <- await query ;;
  match error r with
  | Some e => throw ("Database error: " ++ message e)
  | None =>
      key_text <- lift (to_string key) ;;
      ret (respond
             [ ("status", str "success");
               ("message", str ("Memory '" ++ key_text ++ "' deleted successfully"));
               ("key", key) ])
  end.

(** The callback of [data.reduce]: [acc[row.tag] = (acc[row.tag] || 0) + 1]. *)
Definition count_tag (acc : object) (row : json) : object + string :=
  match member row "tag" with
  | inl tag =>
      match to_string tag with
      | inl k =>
          match or_zero_plus_one (get acc k) with
          | inl count => inl (set acc k count)
          | inr e => inr e
          end
      | inr e => inr e
      end
  | inr e => inr e
  end.

Fixpoint reduce (rows : list json) (acc : object) : object + string :=
  match rows with
  | [] => inl acc
  | row :: rest =>
      match count_tag acc row with
      | inl acc' => reduce rest acc'
      | inr e => inr e
      end
  end.

(** [data.reduce(callback, {})]. *)
Definition tagCounts (data : json) : object + string :=
  match data with
  | JArr rows => reduce rows []
  | JNull => inr "Cannot read properties of null (reading 'reduce')"
  | _ => inr "data.reduce is not a function"
  end.

Definition tag_entry (e : string * json) : json :=
  JObj (literal [ ("tag", str (fst e)); ("count", Some (snd e)) ]).

Definition list_tags (args : option object) : M CallToolResult :=
  a <- destructure args "user_id" ;;
  let user_id := own a "user_id" in
  query <- lift (from "memories" |> select "tag" |> eq "user_id" user_id) ;;
  query <- lift (query |> not_ "tag" "is" null) ;;
  r <- await query ;;
  match error r with
  | Some e => throw ("Database error: " ++ message e)
  | None =>
      counts <- lift (tagCounts (data r)) ;;
      ret (respond
             [ ("tags", Some (JArr (map tag_entry (Object_entries counts)))) ])
  end.

(** The [switch (name)] inside [try]. *)
Definition dispatch (name : string) (args : option object) : M CallToolResult :=
  if (name =? "create_memory")%string then create_memory args
  else if (name =? "get_memory")%string then get_memory args
  else if (name =? "list_memories")%string then list_memories args
  else if (name =? "forget_memory")%string then forget_memory args
  else if (name =? "list_tags")%string then list_tags args
  else throw ("Unknown tool: " ++ name).

(** The [catch] branch. *)
Definition error_result (message : string) : CallToolResult :=
  mkResult
    [ mkText "text"
        (JSON_stringify
           (JObj (literal [ ("error", str message); ("status", str "error") ]))) ]
    (Some true).

(** The request handler: [try { switch ... } catch (error) { ... }]. *)
Definition call_tool (name : string) (args : option object) (w : World)
  : CallToolResult * World :=
  match dispatch name args w with
  | (Normal result, w') => (result, w')
  | (Throw message, w') => (error_result message, w')
  end.

(** The world once [q] has been awaited in [w]. *)
Definition after (w : World) (q : Query) : World :=
mkWorld (snd (exec q (store w))) (calls w ++ [q])%list.

End Handler.

Arguments World S : clear implicits.

End Dispatcher.

(** ** A reference Record Store

    The Record Store is a service outside the sources.  The module gives
    one store behind the client's interface: the table [memories] of the
    persisted schema, answering the queries the handler builds with the
    meaning PostgREST and PostgreSQL give to [eq], [not.is.null],
    [or=(...)], [ilike], [order], [on_conflict] and the single-object
    request.  Conditions of an [or] filter other than
    [column.ilike.pattern] on a text column, filters on the columns that
    are not text, and values other than strings for the text columns are
    outside the fragment modelled and are refused. *)

Module Table.
Import JS Postgrest.

(** Modelled from the spec: the row of the table [memories], whose schema
    is not among the sources: [user_id], [memory_key] and [content] are
    text and never null, [tag] and [metadata] are nullable, the timestamps
    are assigned by the store (here: ticks of its clock). *)
Record Row : Type := mkRow
  { user_id : string;
    memory_key : string;
    content : string;
    tag : option string;
    metadata : option json;
    created_at : nat;
    updated_at : nat }.

(** Modelled from the spec: the Record Store holds the rows and assigns
    the timestamps.  [outage] is a failure of the service as a whole
    (connectivity, credentials): while it lasts every query is answered
    with that error. *)
Record Store : Type := mkStore
  { rows : list Row; clock : nat; outage : option PostgrestError }.

Definition empty : Store := mkStore [] 0 None.

Definition all_columns : list string :=
  [ "user_id"; "memory_key"; "content"; "tag"; "metadata";
    "created_at"; "updated_at" ].

(** A timestamp reaches the handler as text; the ticks are printed in
    decimal. *)
Definition timestamp (t : nat) : json := JStr (string_of_Z (Z.of_nat t)).

Definition nullable {A} (f : A -> json) (v : option A) : json :=
  match v with Some a => f a | None => JNull end.

Definition column (c : string) (r : Row) : option json :=
  if (c =? "user_id")%string then Some (JStr (user_id r))
  else if (c =? "memory_key")%string then Some (JStr (memory_key r))
  else if (c =? "content")%string then Some (JStr (content r))
  else if (c =? "tag")%string then Some (nullable JStr (tag r))
  else if (c =? "metadata")%string then Some (nullable (fun j => j) (metadata r))
  else if (c =? "created_at")%string then Some (timestamp (created_at r))
  else if (c =? "updated_at")%string then Some (timestamp (updated_at r))
  else None.

(** The value of a text column: [Some None] is SQL NULL, [None] is not a
    text column. *)
Definition text_column (c : string) (r : Row) : option (option string) :=
  if (c =? "user_id")%string then Some (Some (user_id r))
  else if (c =? "memory_key")%string then Some (Some (memory_key r))
  else if (c =? "content")%string then Some (Some (content r))
  else if (c =? "tag")%string then Some (tag r)
  else None.

Definition is_text_column (c : string) : bool :=
  mem c [ "user_id"; "memory_key"; "content"; "tag" ].

(** *** Strings *)

Fixpoint split (sep : ascii) (s : string) : list string :=
  match s with
  | EmptyString => [ "" ]
  | String c s' =>
      if Ascii.eqb c sep then "" :: split sep s'
      else match split sep s' with
           | [] => [ String c "" ]
           | h :: t => String c h :: t
           end
  end.

(** The text before and after the first [sep]. *)
Fixpoint cut (sep : ascii) (s : string) : option (string * string) :=
  match s with
  | EmptyString => None
  | String c s' =>
      if Ascii.eqb c sep then Some ("", s')
      else match cut sep s' with
           | Some (a, b) => Some (String c a, b)
           | None => None
           end
  end.

Fixpoint occurs (c : ascii) (s : string) : bool :=
  match s with
  | EmptyString => false
  | String d s' => Ascii.eqb d c || occurs c s'
  end.

Fixpoint strip_spaces (s : string) : string :=
  match s with
  | EmptyString => ""
  | String c s' =>
      if Ascii.eqb c " " then strip_spaces s' else String c (strip_spaces s')
  end.

(** Modelled from the spec: letter case is folded for the ASCII letters;
    the statements that rest on it take the text compared to be ASCII. *)
Definition lower (c : ascii) : ascii :=
  let n := nat_of_ascii c in
  if ((65 <=? n)%nat && (n <=? 90)%nat)%bool then ascii_of_nat (n + 32) else c.

(** *** ILIKE *)

Inductive Tok : Type :=
| Any            (* % : any run of characters *)
| One            (* _ : any one character *)
| Lit (c : ascii).

(** PostgREST turns [*] into [%] before the pattern reaches SQL. *)
Fixpoint star_to_percent (p : string) : string :=
  match p with
  | EmptyString => ""
  | String c p' =>
      String (if Ascii.eqb c "*" then "%"%char else c) (star_to_percent p')
  end.

(** A backslash makes the next character literal; a pattern may not end
    with one. *)
Fixpoint tokens (p : string) : option (list Tok) :=
  match p with
  | EmptyString => Some []
  | String c p' =>
      if Ascii.eqb c "\" then
        match p' with
        | EmptyString => None
        | String d p'' => option_map (cons (Lit d)) (tokens p'')
        end
      else
        option_map
          (cons (if Ascii.eqb c "%" then Any
                 else if Ascii.eqb c "_" then One else Lit c))
          (tokens p')
  end.

Fixpoint matches (ts : list Tok) (s : string) : bool :=
  match ts with
  | [] => match s with EmptyString => true | _ => false end
  | Lit c :: ts' =>
      match s with
      | String d s' => Ascii.eqb (lower c) (lower d) && matches ts' s'
      | EmptyString => false
      end
  | One :: ts' =>
      match s with
      | String _ s' => matches ts' s'
      | EmptyString => false
      end
  | Any :: ts' =>
      (fix skip (s : string) : bool :=
         matches ts' s
         || match s with
            | String _ s' => skip s'
            | EmptyString => false
            end) s
  end.

(** [column ILIKE pattern]; NULL never matches. *)
Definition ilike (c : string) (ts : list Tok) (r : Row) : bool :=
  match text_column c r with
  | Some (Some s) => matches ts s
  | _ => false
  end.

(** *** Filters *)

(** One condition of an [or] filter: [column.ilike.pattern]. *)
Definition parse_condition (s : string) : option (Row -> bool) :=
  match cut "." s with
  | Some (c, rest) =>
      match cut "." rest with
      | Some (op, pattern) =>
          if (is_text_column c && (op =? "ilike")%string)%bool then
            option_map (ilike c) (tokens (star_to_percent pattern))
          else None
      | None => None
      end
  | None => None
  end.

Fixpoint parse_conditions (l : list string) : option (list (Row -> bool)) :=
  match l with
  | [] => Some []
  | s :: l' =>
      match parse_condition s, parse_conditions l' with
      | Some p, Some ps => Some (p :: ps)
      | _, _ => None
      end
  end.

(** [or=(filters)]: the conditions are separated by commas, and a value
    holds neither a comma nor a closing parenthesis. *)
Definition parse_or (filters : string) : option (Row -> bool) :=
  if occurs ")" filters then None
  else option_map (fun ps r => existsb (fun p => p r) ps)
                  (parse_conditions (split "," filters)).

Definition parse_filter (f : Filter) : option (Row -> bool) :=
  match f with
  | FEq c v =>
      if is_text_column c then
        Some (fun r => match text_column c r with
                       | Some (Some s) => (s =? v)%string
                       | _ => false
                       end)
      else None
  | FNot c op v =>
      if (mem c all_columns && (op =? "is")%string && (v =? "null")%string)%bool
      then Some (fun r => match column c r with
                          | Some JNull => false
                          | _ => true
                          end)
      else None
  | FOr filters => parse_or filters
  end.

(** All the filters of a query must hold. *)
Fixpoint parse_filters (fs : list Filter) : option (Row -> bool) :=
  match fs with
  | [] => Some (fun _ => true)
  | f :: fs' =>
      match parse_filter f, parse_filters fs' with
      | Some p, Some ps => Some (fun r => p r && ps r)
      | _, _ => None
      end
  end.

(** *** select and order *)

Fixpoint expand (cs : list string) : option (list string) :=
  match cs with
  | [] => Some []
  | c :: cs' =>
      match expand cs' with
      | Some l =>
          if (c =? "*")%string then Some (all_columns ++ l)%list
          else if mem c all_columns then Some (c :: l)
          else None
      | None => None
      end
  end.

Definition parse_columns (columns : string) : option (list string) :=
  expand (split "," (strip_spaces columns)).

Fixpoint project (cs : list string) (r : Row) : object :=
  match cs with
  | [] => []
  | c :: cs' =>
      match column c r with
      | Some v => (c, v) :: project cs' r
      | None => project cs' r
      end
  end.

Definition timestamp_column (c : string) : option (Row -> nat) :=
  if (c =? "updated_at")%string then Some updated_at
  else if (c =? "created_at")%string then Some created_at
  else None.

Definition parse_order (o : option (string * bool)) : option (list Row -> list Row) :=
  match o with
  | None => Some (fun l => l)
  | Some (c, ascending) =>
      match timestamp_column c with
      | Some f =>
          Some (sort (fun a b => if ascending then (f a <=? f b)%nat
                                 else (f b <=? f a)%nat))
      | None => None
      end
  end.

(** *** Answers *)

Definition ok (d : json) : Response := mkResponse d None.

Definition failed (code message : string) : Response :=
  mkResponse JNull (Some (mkError message "" "" code)).

Definition no_single_row : Response :=
  failed "PGRST116" "JSON object requested, multiple (or no) rows returned".

Definition bad_request : Response :=
  failed "PGRST100" "failed to parse the request".

Definition same_key (u k : string) (r : Row) : bool :=
  ((user_id r =? u)%string && (memory_key r =? k)%string)%bool.

(** Modelled from the spec: the upsert on [(user_id, memory_key)], whose
    conflict clause is the store's: [INSERT ... ON CONFLICT DO UPDATE]
    replaces [content], [tag], [metadata] and [updated_at] of the row of
    the pair in place (it keeps its [created_at]), and adds a row when
    the pair has none. *)
Fixpoint merge (u k c : string) (t : option string) (m : option json)
    (now : nat) (l : list Row) : list Row :=
  match l with
  | [] => [ mkRow u k c t m now now ]
  | r :: l' =>
      if same_key u k r then mkRow u k c t m (created_at r) now :: l'
      else r :: merge u k c t m now l'
  end.

(** The [created_at] an upsert leaves on the row of the pair. *)
Definition created (u k : string) (now : nat) (l : list Row) : nat :=
  match find (same_key u k) l with
  | Some r => created_at r
  | None => now
  end.

Definition text_of (v : value) : option string :=
  match v with Some (JStr s) => Some s | _ => None end.

(** A nullable text column: [Some None] is NULL, [None] is not text. *)
Definition nullable_text_of (v : value) : option (option string) :=
  match v with
  | None => Some None
  | Some JNull => Some None
  | Some (JStr s) => Some (Some s)
  | _ => None
  end.

Definition jsonb_of (v : value) : option json :=
  match v with
  | None => None
  | Some JNull => None
  | Some j => Some j
  end.

Definition answer (q : Query) (matching : list Row) : Response :=
  match q_columns q with
  | None => ok JNull
  | Some columns =>
      match parse_columns columns, parse_order (q_order q) with
      | Some cs, Some ordered =>
          let out := map (project cs) (ordered matching) in
          if q_single q then
            match out with
            | [ o ] => ok (JObj o)
            | _ => no_single_row
            end
          else ok (JArr (map JObj out))
      | _, _ => bad_request
      end
  end.

(** A request the service refuses before it reaches the table. *)
Definition well_formed (q : Query) : bool :=
  ((q_table q =? "memories")%string
   && match parse_filters (q_filters q) with Some _ => true | None => false end
   && match q_columns q with
      | Some columns =>
          match parse_columns columns, parse_order (q_order q) with
          | Some _, Some _ => true
          | _, _ => false
          end
      | None => true
      end)%bool.

Definition matching (q : Query) : Row -> bool :=
  match parse_filters (q_filters q) with
  | Some p => p
  | None => fun _ => false
  end.

(** Modelled from the spec: how the Record Store answers a query, point
    lookup, filtered list, upsert and delete over the one table. *)
Definition run (q : Query) (st : Store) : Response * Store :=
  match outage st with
  | Some e => (mkResponse JNull (Some e), st)
  | None =>
      if negb (well_formed q) then (bad_request, st)
      else
        match q_verb q with
        | Select => (answer q (filter (matching q) (rows st)), st)
        | Delete =>
            (answer q (filter (matching q) (rows st)),
             mkStore (filter (fun r => negb (matching q r)) (rows st))
                     (clock st) None)
        | Upsert values onConflict =>
            match text_of (own values "user_id"),
                  text_of (own values "memory_key"),
                  text_of (own values "content"),
                  nullable_text_of (own values "tag") with
            | Some u, Some k, Some c, Some t =>
                if (onConflict =? "user_id,memory_key")%string then
                  let m := jsonb_of (own values "metadata") in
                  let now := clock st in
                  let l := merge u k c t m now (rows st) in
                  (answer q (filter (same_key u k) l),
                   mkStore l (Datatypes.S now) None)
                else
                  (failed "42P10" "there is no unique or exclusion constraint matching the ON CONFLICT specification", st)
            | _, _, _, _ =>
                (failed "23502" "the row does not fit the columns of the table", st)
            end
        end
  end.

#[export] Instance table_store : RecordStore Store := {| exec := run |}.

(** The uniqueness constraint on [(user_id, memory_key)]. *)
Definition key_of (r : Row) : string * string := (user_id r, memory_key r).

Definition unique_keys (st : Store) : Prop := NoDup (map key_of (rows st)).

Definition available (st : Store) : Prop := outage st = None.

End Table.

(** ** Vocabulary of the statements *)

Module Spec.
Import JS Postgrest Dispatcher.

(** What the caller receives: one text item holding the JSON text of a
    payload; [isError] is absent on success and [true] on failure, where
    the payload is [{ error, status: 'error' }]. *)
Definition success (payload : list (string * json)) : CallToolResult :=
  mkResult [ mkText "text" (JSON_stringify (JObj payload)) ] None.

Definition failure (message : string) : CallToolResult :=
  mkResult
    [ mkText "text"
        (JSON_stringify
           (JObj [ ("error", JStr message); ("status", JStr "error") ])) ]
    (Some true).

(** A response envelope: one text item, and [isError] absent or [true]. *)
Definition envelope (r : CallToolResult) : Prop :=
  (exists payload, r = success payload) \/ (exists message, r = failure message).

Definition and_then {A B : Type} (r : A + string) (f : A -> B + string)
  : B + string :=
  match r with
  | inl a => f a
  | inr e => inr e
  end.

(** The query [create_memory] awaits, read off its case. *)
Definition upsert_query (a : object) : Query :=
  from "memories"
  |> upsert (literal [ ("user_id", own a "user_id");
                       ("memory_key", own a "key");
                       ("content", own a "content");
                       ("tag", or_else (own a "tag") null);
                       ("metadata", or_else (own a "metadata") null) ])
            "user_id,memory_key"
  |> returning "*".

(** The requests of the other tools, for arguments whose texts are
    known. *)
Definition lookup (u k : string) : Query :=
  mkQuery "memories" Select (Some "*")
          [ FEq "user_id" u; FEq "memory_key" k ] None true.

Definition removal (u k : string) : Query :=
  mkQuery "memories" Delete None
          [ FEq "user_id" u; FEq "memory_key" k ] None false.

Definition tag_scan (u : string) : Query :=
  mkQuery "memories" Select (Some "tag")
          [ FEq "user_id" u; FNot "tag" "is" "null" ] None false.

(** The text [list_memories] gives to [.or()] for the search term [s]. *)
Definition search_filter (s : string) : string :=
  "memory_key.ilike.%" ++ s ++ "%,content.ilike.%" ++ s ++ "%".

Definition scan (u : string) (t s : option string) : Query :=
  mkQuery "memories" Select
          (Some "memory_key, content, tag, created_at, updated_at")
          ([ FEq "user_id" u ]
           ++ match t with Some t' => [ FEq "tag" t' ] | None => [] end
           ++ match s with Some s' => [ FOr (search_filter s') ] | None => [] end)%list
          (Some ("updated_at", false)) false.

(** The text of an optional argument: none when the argument is falsy. *)
Definition optional (v : value) : option string + string :=
  if truthy v then
    match to_string v with
    | inl text => inl (Some text)
    | inr e => inr e
    end
  else inl None.

(** The query each of the other tools awaits, or the message of the
    TypeError an argument without a text raises before any request. *)
Definition lookup_query (a : object) : Query + string :=
  and_then (to_string (own a "user_id")) (fun u =>
  and_then (to_string (own a "key")) (fun k =>
  inl (lookup u k))).

Definition list_query (a : object) : Query + string :=
  and_then (to_string (own a "user_id")) (fun u =>
  and_then (optional (own a "tag")) (fun t =>
  and_then (optional (own a "search")) (fun s =>
  inl (scan u t s)))).

Definition delete_query (a : object) : Query + string :=
  and_then (to_string (own a "user_id")) (fun u =>
  and_then (to_string (own a "key")) (fun k =>
  inl (removal u k))).

Definition tags_query (a : object) : Query + string :=
  and_then (to_string (own a "user_id")) (fun u => inl (tag_scan u)).

Definition query_of (name : string) (a : object) : Query + string :=
  if (name =? "create_memory")%string then inl (upsert_query a)
  else if (name =? "get_memory")%string then lookup_query a
  else if (name =? "list_memories")%string then list_query a
  else if (name =? "forget_memory")%string then delete_query a
  else tags_query a.

(** The answers of the tools.  An answer that quotes the key fails when
    the key has no text. *)
Definition quoting (key : value) (payload : string -> list (string * value))
  : CallToolResult :=
  match to_string key with
  | inl text => success (literal (payload text))
  | inr e => failure e
  end.

Definition saved (key : value) : CallToolResult :=
  quoting key (fun text =>
    [ ("status", Some (JStr "success"));
      ("message", Some (JStr ("Memory '" ++ text ++ "' saved successfully")));
      ("key", key) ]).

Definition deleted (key : value) : CallToolResult :=
  quoting key (fun text =>
    [ ("status", Some (JStr "success"));
      ("message", Some (JStr ("Memory '" ++ text ++ "' deleted successfully")));
      ("key", key) ]).

Definition not_found (key : value) : CallToolResult :=
  quoting key (fun text =>
    [ ("status", Some (JStr "not_found"));
      ("message", Some (JStr ("No memory found with key '" ++ text ++ "'"))) ]).

Definition database_error (e : PostgrestError) : CallToolResult :=
  failure ("Database error: " ++ message e).

(** [d.k] where [d] is not [null]. *)
Definition field (d : json) (k : string) : value :=
  match member d k with inl v => v | inr _ => undefined end.

Definition record (d : json) : CallToolResult :=
  success (literal [ ("key", field d "memory_key");
                     ("content", field d "content");
                     ("tag", field d "tag");
                     ("metadata", field d "metadata");
                     ("created_at", field d "created_at");
                     ("updated_at", field d "updated_at") ]).

(** [{ count: data.length, memories: data }], or the TypeError of reading
    [length] of [null]. *)
Definition listing (d : json) : CallToolResult :=
  match member d "length" with
  | inl count => success (literal [ ("count", count); ("memories", Some d) ])
  | inr e => failure e
  end.

(** An entry of [tags]. *)
Definition entry (e : string * json) : json :=
  JObj [ ("tag", JStr (fst e)); ("count", snd e) ].

Definition tag_list (counts : object) : CallToolResult :=
  success [ ("tags", JArr (map entry (Object_entries counts))) ].

(** The argument bag with the argument [k] left out. *)
Definition without (k : string) (a : object) : object :=
  filter (fun p => negb (fst p =? k)%string) a.

(** The values an upsert sends, [[]] for any other query. *)
Definition sent (q : Query) : object :=
  match q_verb q with
  | Upsert values _ => values
  | _ => []
  end.

(** An optional argument the schema types as a string: a string, or a
    value that counts as absent. *)
Definition optional_text (v : value) : Prop :=
  truthy v = false \/ exists s, v = Some (JStr s).

(** What a create call writes in the nullable columns. *)
Definition written_tag (a : object) : option string :=
  match or_else (own a "tag") null with
  | Some (JStr s) => Some s
  | _ => None
  end.

Definition written_metadata (a : object) : option json :=
  Table.jsonb_of (or_else (own a "metadata") null).

(** The rows of a pair, and the world of a store with no query awaited yet. *)
Definition rows_of (u k : string) (st : Table.Store) : list Table.Row :=
  filter (Table.same_key u k) (Table.rows st).

Definition world (st : Table.Store) : World Table.Store := mkWorld st [].

(** The store a create call leaves. *)
Definition upserted (a : object) (u k c : string) (st : Table.Store) : Table.Store :=
  Table.mkStore
    (Table.merge u k c (written_tag a) (written_metadata a)
                 (Table.clock st) (Table.rows st))
    (Datatypes.S (Table.clock st)) None.

(** The store a forget call leaves. *)
Definition forgotten (u k : string) (st : Table.Store) : Table.Store :=
  Table.mkStore
    (filter (fun r => negb (Table.same_key u k r)) (Table.rows st))
    (Table.clock st) None.

(** The distinct elements of a list, in the order of their first
    occurrence. *)
Fixpoint first_occurrences (l : list string) : list string :=
  match l with
  | [] => []
  | x :: l' => x :: filter (fun y => negb (y =? x)%string) (first_occurrences l')
  end.

Definition occurrences (t : string) (l : list string) : nat :=
  count_occ string_dec l t.

(** The non-null tags of the rows of user [u], in the order of the table. *)
Definition tags_of (u : string) (st : Table.Store) : list string :=
  flat_map (fun r => if (Table.user_id r =? u)%string
                     then match Table.tag r with Some t => [ t ] | None => [] end
                     else [])
           (Table.rows st).

(** The rows of user [u] that bear the tag [t]. *)
Definition bearing (u t : string) (st : Table.Store) : list Table.Row :=
  filter (fun r => (Table.user_id r =? u)%string
                   && match Table.tag r with
                      | Some t' => (t' =? t)%string
                      | None => false
                      end) (Table.rows st).

(** The counts a plain object holds once the tags [seen] have been
    counted, none of them a property of [Object.prototype]. *)
Definition tally (seen : list string) : object :=
  map (fun t => (t, JNum (Z.of_nat (occurrences t seen)))) (first_occurrences seen).

(** A tag that names nothing a plain object inherits. *)
Definition own_only (t : string) : Prop := Object_prototype t = None.

(** A row as [select('tag')] returns it. *)
Definition tag_row (t : string) : json := JObj [ ("tag", JStr t) ].






(** The optional string argument [v] has the text [s]; an absent argument
    has the empty text. *)
Definition given (v : value) (s : string) : Prop :=
  v = str s \/ (v = undefined /\ s = "").





Definition five : list string :=
  [ "memory_key"; "content"; "tag"; "created_at"; "updated_at" ].

(** A row as [list_memories] returns it. *)
Definition listed (r : Table.Row) : json :=
  JObj [ ("memory_key", JStr (Table.memory_key r));
         ("content", JStr (Table.content r));
         ("tag", Table.nullable JStr (Table.tag r));
         ("created_at", Table.timestamp (Table.created_at r));
         ("updated_at", Table.timestamp (Table.updated_at r)) ].

(** Most recently updated first. *)
Definition newer_first (r r' : Table.Row) : Prop :=
  Table.updated_at r' <= Table.updated_at r.

Definition newer_firstb (r r' : Table.Row) : bool :=
  (Table.updated_at r' <=? Table.updated_at r)%nat.

(** The answer of [get_memory] for a row. *)
Definition memory (r : Table.Row) : CallToolResult :=
  success [ ("key", JStr (Table.memory_key r));
            ("content", JStr (Table.content r));
            ("tag", Table.nullable JStr (Table.tag r));
            ("metadata", Table.nullable (fun j => j) (Table.metadata r));
            ("created_at", Table.timestamp (Table.created_at r));
            ("updated_at", Table.timestamp (Table.updated_at r)) ].

(** The answer of [list_memories] for the rows it found. *)
Definition memories (found : list Table.Row) : CallToolResult :=
  success [ ("count", JNum (Z.of_nat (List.length found)));
            ("memories", JArr (map listed found)) ].



(** A row as [select('*')] returns it. *)
Definition row_json (r : Table.Row) : json :=
  JObj (Table.project Table.all_columns r).

End Spec.

(** ** Worlds and calls to try the handler on *)

Module Example.
Import JS Postgrest Dispatcher Spec.

Definition fresh : World Table.Store := world Table.empty.

Definition create_sushi : object :=
  [ ("user_id", JStr "u1"); ("key", JStr "favorite_food");
    ("content", JStr "sushi"); ("tag", JStr "personal") ].

Definition create_ramen : object :=
  [ ("user_id", JStr "u1"); ("key", JStr "favorite_food");
    ("content", JStr "ramen"); ("tag", JStr "food");
    ("metadata", JObj [ ("spicy", JBool true) ]) ].

Definition create_untagged : object :=
  [ ("user_id", JStr "u1"); ("key", JStr "favorite_food");
    ("content", JStr "sushi"); ("tag", JStr "") ].

Definition favorite_food : object :=
  [ ("user_id", JStr "u1"); ("key", JStr "favorite_food") ].

Definition nonexistent : object :=
  [ ("user_id", JStr "u1"); ("key", JStr "nonexistent") ].

Definition food_key : object :=
  [ ("user_id", JStr "u1"); ("key", JStr "food") ].

Definition create_food : object :=
  [ ("user_id", JStr "u1"); ("key", JStr "food");
    ("content", JStr "ramen"); ("tag", JStr "food") ].

Definition food : Table.Row :=
  Table.mkRow "u1" "food" "sushi" (Some "personal") None 0 0.

Definition path : Table.Row :=
  Table.mkRow "u1" "path" "a\b" (Some "work") None 1 1.

(** Two rows of user u1, neither holding [_], [%], [*] or a comma. *)
Definition two_rows : World Table.Store :=
  world (Table.mkStore [ food; path ] 2 None).

Definition search (s : string) : object :=
  [ ("user_id", JStr "u1"); ("search", JStr s) ].

Definition tagged (t s : string) : object :=
  [ ("user_id", JStr "u1"); ("tag", JStr t); ("search", JStr s) ].

Definition everything : object := [ ("user_id", JStr "u1") ].

(** A key with no text: its own [toString] is not a function. *)
Definition no_text : object :=
  [ ("user_id", JStr "u1"); ("key", JObj [ ("toString", JNum 1) ]) ].

(** The answer of the store when no row, or more than one, is found. *)
Definition no_rows : PostgrestError :=
  mkError "JSON object requested, multiple (or no) rows returned" "" "" "PGRST116".

(** Lines of JSON text. *)
Definition in_quotes (s : string) : string :=
  String dquote (s ++ String dquote "").

Fixpoint lines (l : list string) : string :=
  match l with
  | [] => ""
  | [ x ] => x
  | x :: rest => x ++ newline ++ lines rest
  end.

(** A store that cannot be reached. *)
Definition unreachable : PostgrestError := mkError "fetch failed" "" "" "".

Definition down : World Table.Store :=
  world (Table.mkStore [ food ] 1 (Some unreachable)).

(** Rows tagged b, 1, nothing, b, in that order. *)
Definition four_tags : World Table.Store :=
  world (Table.mkStore
           [ Table.mkRow "u1" "k1" "c1" (Some "b") None 0 0;
             Table.mkRow "u1" "k2" "c2" (Some "1") None 1 1;
             Table.mkRow "u1" "k3" "c3" None None 2 2;
             Table.mkRow "u1" "k4" "c4" (Some "b") None 3 3 ]
           4 None).

(** Rows tagged constructor, twice. *)
Definition inherited_tags : World Table.Store :=
  world (Table.mkStore
           [ Table.mkRow "u1" "k1" "c1" (Some "constructor") None 0 0;
             Table.mkRow "u1" "k2" "c2" (Some "constructor") None 1 1 ]
           2 None).

End Example.

(** ** The handler of [ListToolsRequestSchema] *)

Module Catalog.
Import JS.

Record Property : Type := mkProperty { type : string; description : string }.

Record Schema : Type := mkSchema
  { schema_type : string;
    properties : list (string * Property);
    required : list string }.

Record Tool : Type := mkTool
  { name : string; tool_description : string; inputSchema : Schema }.

Definition quoted (s : string) : string :=
  String dquote (s ++ String dquote "").

Definition user_id : string * Property :=
  ("user_id", mkProperty "string" "Unique identifier for the user").

(** The answer of the handler: [{ tools: [...] }]. *)
Definition tools : list Tool :=
  [ mkTool "create_memory"
      "Create or update a memory entry. Use this when the user shares important information that should be remembered."
      (mkSchema "object"
         [ user_id;
           ("key",
            mkProperty "string"
              ("Unique key for this memory (e.g., " ++ quoted "favorite_food"
               ++ ", " ++ quoted "home_address" ++ ")"));
           ("content", mkProperty "string" "The actual content to remember");
           ("tag",
            mkProperty "string"
              ("Optional category tag (e.g., " ++ quoted "personal" ++ ", "
               ++ quoted "work" ++ ", " ++ quoted "medical" ++ ")"));
           ("metadata", mkProperty "object" "Optional additional structured data") ]
         [ "user_id"; "key"; "content" ]);
    mkTool "get_memory" "Retrieve a specific memory by key"
      (mkSchema "object"
         [ user_id;
           ("key", mkProperty "string" "The key of the memory to retrieve") ]
         [ "user_id"; "key" ]);
    mkTool "list_memories"
      "List all memories for a user, optionally filtered by tag"
      (mkSchema "object"
         [ user_id;
           ("tag", mkProperty "string" "Optional tag to filter by");
           ("search", mkProperty "string" "Optional search term to filter memories") ]
         [ "user_id" ]);
    mkTool "forget_memory" "Delete a specific memory"
      (mkSchema "object"
         [ user_id;
           ("key", mkProperty "string" "The key of the memory to delete") ]
         [ "user_id"; "key" ]);
    mkTool "list_tags" "Get all unique tags used in memories"
      (mkSchema "object" [ user_id ] [ "user_id" ]) ].

(** The arguments a tool declares. *)
Definition declared (t : Tool) : list string :=
  map fst (properties (inputSchema t)).

End Catalog.

(** ** Measures of queries and of tag counts *)

Module Measure.
Import JS Postgrest.

(** A query that changes the table. *)
Definition writes (q : Query) : bool :=
  match q_verb q with
  | Select => false
  | _ => true
  end.

(** The number an entry of [tags] counts. *)
Definition count_of (v : json) : Z :=
  match v with
  | JNum n => n
  | _ => 0%Z
  end.

Fixpoint total (entries : list (string * json)) : Z :=
  match entries with
  | [] => 0%Z
  | e :: rest => (count_of (snd e) + total rest)%Z
  end.

End Measure.

(** * Properties of the handler *)

Arguments JS.JSON_stringify : simpl never.
Arguments JS.truthy : simpl never.

Import JS Postgrest Dispatcher Spec.

(** ** Insertion sort *)

Section Sort_facts.
Context {A : Type} (leb : A -> A -> bool).
Hypothesis leb_total : forall a b, leb a b = false -> leb b a = true.

Lemma insert_permutation (x : A) (l : list A) :
  Permutation (insert leb x l) (x :: l).
Proof.
  induction l as [|y l IH]; simpl; [reflexivity|].
  destruct (leb x y); [reflexivity|].
  rewrite IH. apply perm_swap.
Qed.

Lemma sort_permutation (l : list A) : Permutation (sort leb l) l.
Proof.
  induction l as [|x l IH]; simpl; [reflexivity|].
  rewrite insert_permutation. constructor. exact IH.
Qed.

Lemma sort_In (x : A) (l : list A) : In x (sort leb l) <-> In x l.
Proof.
  split; apply Permutation_in;
    [ apply sort_permutation | symmetry; apply sort_permutation ].
Qed.

Lemma insert_sorted (x : A) (l : list A) :
  Sorted (fun a b => leb a b = true) l ->
  Sorted (fun a b => leb a b = true) (insert leb x l).
Proof.
  induction l as [|y l IH]; simpl; intro Hs.
  - repeat constructor.
  - destruct (leb x y) eqn:Hxy.
    + constructor; [exact Hs | constructor; exact Hxy].
    + inversion Hs as [|y' l' Hs' Hhd]; subst.
      constructor; [apply IH; exact Hs'|].
      destruct l as [|z l]; simpl.
      * constructor. apply leb_total; exact Hxy.
      * destruct (leb x z).
        -- constructor. apply leb_total; exact Hxy.
        -- inversion Hhd; subst. constructor; assumption.
Qed.

Lemma sort_sorted (l : list A) : Sorted (fun a b => leb a b = true) (sort leb l).
Proof.
  induction l as [|x l IH]; simpl; [constructor|].
  apply insert_sorted; exact IH.
Qed.

End Sort_facts.

(** ** The handler over any Record Store *)

Section Any_store.
Context {S : Type} `{RecordStore S}.

Lemma await_run (q : Query) (w : World S) :
  await q w = (Normal (fst (exec q (store w))), after w q).
Proof.
  unfold await, after. destruct (exec q (store w)); reflexivity.
Qed.

Lemma respond_success (payload : list (string * value)) :
  respond payload = success (literal payload).
Proof. reflexivity. Qed.

Lemma error_result_failure (message : string) :
  error_result message = failure message.
Proof. reflexivity. Qed.

Lemma create_memory_run (a : object) (w : World S) :
  call_tool "create_memory" (Some a) w =
    (match error (fst (exec (upsert_query a) (store w))) with
     | Some e => database_error e
     | None => saved (own a "key")
     end, after w (upsert_query a)).
Proof.
  unfold call_tool, dispatch; simpl.
  unfold create_memory, bind, destructure, ret.
  fold (upsert_query a). rewrite await_run.
  destruct (error (fst (exec (upsert_query a) (store w)))); [reflexivity|].
  unfold saved, quoting.
  destruct (to_string (own a "key")); reflexivity.
Qed.

Lemma forget_memory_run (a : object) (w : World S) :
  call_tool "forget_memory" (Some a) w =
    match delete_query a with
    | inl q =>
        (match error (fst (exec q (store w))) with
         | Some e => database_error e
         | None => deleted (own a "key")
         end, after w q)
    | inr e => (failure e, w)
    end.
Proof.
  unfold call_tool, dispatch; simpl.
  unfold forget_memory, bind, destructure, ret, delete_query, and_then, eq.
  destruct (to_string (own a "user_id")) as [u|e]; [|reflexivity].
  destruct (to_string (own a "key")) as [k|e] eqn:Hk; [|reflexivity].
  cbn [lift ret]. rewrite await_run.
  change (add_filter _ (add_filter _ _)) with (removal u k).
  destruct (error (fst (exec (removal u k) (store w)))); [reflexivity|].
  unfold deleted, quoting. rewrite Hk. reflexivity.
Qed.

Lemma member_field (d : json) (k : string) :
  truthy (Some d) = true -> member d k = inl (field d k).
Proof.
  unfold field, truthy; destruct d; simpl; try reflexivity; discriminate.
Qed.

Lemma get_memory_run (a : object) (w : World S) :
  call_tool "get_memory" (Some a) w =
    match lookup_query a with
    | inl q =>
        (let r := fst (exec q (store w)) in
         let answer := if truthy (Some (data r)) then record (data r)
                       else not_found (own a "key") in
         match error r with
         | Some e =>
             if (code e =? "PGRST116")%string then answer else database_error e
         | None => answer
         end, after w q)
    | inr e => (failure e, w)
    end.
Proof.
  unfold call_tool, dispatch; simpl.
  unfold get_memory, bind, destructure, ret, lookup_query, and_then, eq.
  destruct (to_string (own a "user_id")) as [u|e]; [|reflexivity].
  destruct (to_string (own a "key")) as [k|e] eqn:Hk; [|reflexivity].
  cbn [lift ret]. rewrite await_run.
  change (single _) with (lookup u k). cbv zeta.
  set (r := fst (exec (lookup u k) (store w))).
  unfold not_found, quoting. rewrite Hk.
  destruct (truthy (Some (data r))) eqn:Ht;
    (destruct (error r) as [e|]; simpl;
     [ destruct (code e =? "PGRST116")%string; simpl; [|reflexivity] | ]);
    rewrite ?(member_field _ _ Ht); reflexivity.
Qed.

Lemma list_memories_run (a : object) (w : World S) :
  call_tool "list_memories" (Some a) w =
    match list_query a with
    | inl q =>
        (let r := fst (exec q (store w)) in
         match error r with
         | Some e => database_error e
         | None => listing (data r)
         end, after w q)
    | inr e => (failure e, w)
    end.
Proof.
  unfold call_tool, dispatch; simpl.
  unfold list_memories, destructure, list_query, and_then, optional, eq.
  unfold bind at 1. unfold ret at 1. unfold bind at 1.
  destruct (to_string (own a "user_id")) as [u|e]; [|reflexivity].
  cbn [lift ret]. unfold bind at 1.
  assert (Hend : forall q : Query,
    (let (c, w') :=
       bind (await q)
         (fun r =>
            match error r with
            | Some e => throw ("Database error: " ++ message e)
            | None =>
                bind (lift (member (data r) "length"))
                  (fun count =>
                     ret (respond [ ("count", count); ("memories", Some (data r)) ]))
            end) w in
     match c with
     | Normal result => (result, w')
     | Throw message => (error_result message, w')
     end)
    = (let r := fst (exec q (store w)) in
       match error r with
       | Some e => database_error e
       | None => listing (data r)
       end, after w q)).
  { intro q. unfold bind. rewrite await_run. cbv zeta. unfold listing.
    destruct (error (fst (exec q (store w)))); [reflexivity|].
    destruct (member (data (fst (exec q (store w)))) "length"); reflexivity. }
  destruct (truthy (own a "tag")).
  - destruct (to_string (own a "tag")) as [t|e]; [|reflexivity].
    cbn [lift ret].
    destruct (truthy (own a "search")).
    + destruct (to_string (own a "search")) as [s|e]; [|reflexivity].
      cbn [lift ret]. apply Hend.
    + apply Hend.
  - destruct (truthy (own a "search")).
    + destruct (to_string (own a "search")) as [s|e]; [|reflexivity].
      cbn [lift ret]. apply Hend.
    + apply Hend.
Qed.

Lemma tag_entry_entry (e : string * json) : tag_entry e = entry e.
Proof. reflexivity. Qed.

Lemma list_tags_run (a : object) (w : World S) :
  call_tool "list_tags" (Some a) w =
    match tags_query a with
    | inl q =>
        (let r := fst (exec q (store w)) in
         match error r with
         | Some e => database_error e
         | None =>
             match tagCounts (data r) with
             | inl counts => tag_list counts
             | inr message => failure message
             end
         end, after w q)
    | inr e => (failure e, w)
    end.
Proof.
  unfold call_tool, dispatch; simpl.
  unfold list_tags, bind, destructure, ret, tags_query, and_then, eq, not_.
  destruct (to_string (own a "user_id")) as [u|e]; [|reflexivity].
  cbn [lift ret to_string null json_to_string]. rewrite await_run.
  change (add_filter _ (add_filter _ _)) with (tag_scan u). cbv zeta.
  destruct (error (fst (exec (tag_scan u) (store w)))); [reflexivity|].
  destruct (tagCounts (data (fst (exec (tag_scan u) (store w)))));
    reflexivity.
Qed.

Lemma no_arguments (name : string) (w : World S) :
  exists message, call_tool name None w = (failure message, w).
Proof.
  unfold call_tool, dispatch.
  repeat match goal with
         | |- context [if ?b then _ else _] => destruct b
         end; eexists; reflexivity.
Qed.

Lemma unknown_tool (name : string) (args : option object) (w : World S) :
  mem name tool_names = false ->
  call_tool name args w = (failure ("Unknown tool: " ++ name), w).
Proof.
  intro Hname. unfold call_tool, dispatch.
  repeat match goal with
         | |- context [if (name =? ?x)%string then _ else _] =>
             destruct (String.eqb_spec name x) as [-> | _]; [discriminate Hname|]
         end.
  reflexivity.
Qed.

Lemma known_tool (name : string) :
  mem name tool_names = true ->
  name = "create_memory" \/ name = "get_memory" \/ name = "list_memories"
  \/ name = "forget_memory" \/ name = "list_tags".
Proof.
  intro Hname.
  repeat match goal with
         | |- name = ?x \/ _ =>
             destruct (String.eqb_spec name x) as [-> | ?]; [tauto | right]
         end.
  destruct (String.eqb_spec name "list_tags") as [-> | Hn]; [reflexivity|].
  exfalso. revert Hname. unfold tool_names, tools, mem, map, fst.
  repeat match goal with
         | Hx : name <> ?x |- context [(?x =? name)%string] =>
             destruct (String.eqb_spec x name) as [Heq | _];
             [ exfalso; apply Hx; symmetry; exact Heq | clear Hx ]
         end.
  discriminate.
Qed.

(** A call of a tool of the catalog awaits the query of the tool, or
    throws before any request. *)
Lemma call_tool_run (name : string) (a : object) (w : World S) :
  mem name tool_names = true ->
  match query_of name a with
  | inl q => snd (call_tool name (Some a) w) = after w q
  | inr e => call_tool name (Some a) w = (failure e, w)
  end.
Proof.
  intro Hname.
  destruct (known_tool _ Hname) as [-> | [-> | [-> | [-> | ->]]]];
    unfold query_of; simpl.
  - rewrite create_memory_run; reflexivity.
  - rewrite get_memory_run. destruct (lookup_query a); reflexivity.
  - rewrite list_memories_run. destruct (list_query a); reflexivity.
  - rewrite forget_memory_run. destruct (delete_query a); reflexivity.
  - rewrite list_tags_run. destruct (tags_query a); reflexivity.
Qed.

(** Every call leaves the world as it was or awaits one query. *)
Lemma call_tool_world (name : string) (args : option object) (w : World S) :
  snd (call_tool name args w) = w
  \/ exists a q, args = Some a /\ mem name tool_names = true
                 /\ query_of name a = inl q
                 /\ snd (call_tool name args w) = after w q.
Proof.
  destruct args as [a|].
  2:{ destruct (no_arguments name w) as [m ->]. left; reflexivity. }
  destruct (mem name tool_names) eqn:Hname.
  2:{ rewrite (unknown_tool _ _ _ Hname). left; reflexivity. }
  pose proof (call_tool_run name a w Hname) as Hrun.
  destruct (query_of name a) as [q|e] eqn:Hq.
  - right. exists a, q. auto.
  - left. rewrite Hrun. reflexivity.
Qed.

Lemma quoting_envelope (key : value) (payload : string -> list (string * value)) :
  envelope (quoting key payload).
Proof.
  unfold quoting. destruct (to_string key); [left | right]; eexists; reflexivity.
Qed.

Lemma call_tool_envelope (name : string) (args : option object) (w : World S) :
  envelope (fst (call_tool name args w)).
Proof.
  destruct args as [a|].
  2:{ destruct (no_arguments name w) as [m ->]. right; eexists; reflexivity. }
  destruct (mem name tool_names) eqn:Hname.
  2:{ rewrite (unknown_tool _ _ _ Hname). right; eexists; reflexivity. }
  destruct (known_tool _ Hname) as [-> | [-> | [-> | [-> | ->]]]].
  - rewrite create_memory_run; simpl.
    destruct (error _); [right; eexists; reflexivity | apply quoting_envelope].
  - rewrite get_memory_run.
    destruct (lookup_query a); [|right; eexists; reflexivity]. simpl.
    destruct (error _) as [e|];
      [ destruct (code e =? "PGRST116")%string;
        [ | right; eexists; reflexivity ] | ];
      (destruct (truthy _); [left; eexists; reflexivity | apply quoting_envelope]).
  - rewrite list_memories_run.
    destruct (list_query a); [|right; eexists; reflexivity]. simpl.
    destruct (error _); [right; eexists; reflexivity|].
    unfold listing. destruct (member _ _); [left | right]; eexists; reflexivity.
  - rewrite forget_memory_run.
    destruct (delete_query a); [|right; eexists; reflexivity]. simpl.
    destruct (error _); [right; eexists; reflexivity | apply quoting_envelope].
  - rewrite list_tags_run.
    destruct (tags_query a); [|right; eexists; reflexivity]. simpl.
    destruct (error _); [right; eexists; reflexivity|].
    destruct (tagCounts _); [left | right]; eexists; reflexivity.
Qed.

Lemma store_failure_wrapped (name : string) (a : object) (q : Query)
    (w : World S) (e : PostgrestError) :
  mem name tool_names = true ->
  query_of name a = inl q ->
  error (fst (exec q (store w))) = Some e ->
  (name = "get_memory" -> code e <> "PGRST116") ->
  fst (call_tool name (Some a) w) = database_error e.
Proof.
  intros Hname Hq He Hcode.
  destruct (known_tool _ Hname) as [-> | [-> | [-> | [-> | ->]]]];
    unfold query_of in Hq; simpl in Hq.
  - injection Hq as <-. rewrite create_memory_run; simpl. rewrite He; reflexivity.
  - rewrite get_memory_run, Hq; simpl. rewrite He.
    destruct (code e =? "PGRST116")%string eqn:Hc; [|reflexivity].
    apply String.eqb_eq in Hc. exfalso; apply Hcode; auto.
  - rewrite list_memories_run, Hq; simpl. rewrite He; reflexivity.
  - rewrite forget_memory_run, Hq; simpl. rewrite He; reflexivity.
  - rewrite list_tags_run, Hq; simpl. rewrite He; reflexivity.
Qed.

(** The queries of arguments that are strings. *)
Lemma lookup_query_text (a : object) (u k : string) :
  own a "user_id" = str u -> own a "key" = str k ->
  lookup_query a = inl (lookup u k).
Proof. intros Hu Hk. unfold lookup_query. rewrite Hu, Hk. reflexivity. Qed.

Lemma delete_query_text (a : object) (u k : string) :
  own a "user_id" = str u -> own a "key" = str k ->
  delete_query a = inl (removal u k).
Proof. intros Hu Hk. unfold delete_query. rewrite Hu, Hk. reflexivity. Qed.

Lemma tags_query_text (a : object) (u : string) :
  own a "user_id" = str u -> tags_query a = inl (tag_scan u).
Proof. intros Hu. unfold tags_query. rewrite Hu. reflexivity. Qed.

End Any_store.

(** ** The handler over the reference Record Store *)

Import Table.

Lemma same_key_spec (u k : string) (r : Row) :
  same_key u k r = true <-> key_of r = (u, k).
Proof.
  unfold same_key, key_of. rewrite andb_true_iff, !String.eqb_eq.
  split; [intros [-> ->]; reflexivity | intros [= -> ->]; split; reflexivity].
Qed.

Lemma same_key_refl (u k c : string) (t : option string) (m : option json)
    (ca ua : nat) :
  same_key u k (mkRow u k c t m ca ua) = true.
Proof. apply same_key_spec; reflexivity. Qed.

Lemma filter_same_key_absent (u k : string) (l : list Row) :
  ~ In (u, k) (map key_of l) -> filter (same_key u k) l = [].
Proof.
  induction l as [|r l IH]; simpl; intro Hnot; [reflexivity|].
  destruct (same_key u k r) eqn:Hr.
  - apply same_key_spec in Hr. exfalso; apply Hnot; left; exact Hr.
  - apply IH. intro Hin; apply Hnot; right; exact Hin.
Qed.

Lemma merge_rows_of (u k c : string) (t : option string) (m : option json)
    (now : nat) (l : list Row) :
  NoDup (map key_of l) ->
  filter (same_key u k) (merge u k c t m now l)
  = [ mkRow u k c t m (created u k now l) now ].
Proof.
  unfold created.
  induction l as [|r l IH]; simpl; intro Hnd.
  - rewrite same_key_refl. reflexivity.
  - inversion Hnd as [|x xs Hnot Hnd']; subst.
    destruct (same_key u k r) eqn:Hr; simpl.
    + rewrite same_key_refl. f_equal.
      apply filter_same_key_absent.
      apply same_key_spec in Hr. rewrite <- Hr. exact Hnot.
    + rewrite Hr. apply IH; exact Hnd'.
Qed.



Lemma run_lookup (u k : string) (st : Store) :
  available st ->
  run (lookup u k) st
  = (match rows_of u k st with
     | [ r ] => ok (row_json r)
     | _ => no_single_row
     end, st).
Proof.
  intro Hav. unfold run. rewrite Hav.
  change (well_formed (lookup u k)) with true. cbv iota; simpl negb; cbv iota.
  change (q_verb (lookup u k)) with Select. cbv iota.
  f_equal. unfold rows_of.
  rewrite (filter_ext (matching (lookup u k)) (same_key u k)).
  2:{ intro r. unfold same_key. cbn. rewrite andb_true_r. reflexivity. }
  unfold answer.
  change (q_columns (lookup u k)) with (Some "*").
  change (parse_columns "*") with (Some all_columns).
  change (q_order (lookup u k)) with (@None (string * bool)).
  change (q_single (lookup u k)) with true. cbv iota beta.
  unfold parse_order.
  destruct (filter _ (rows st)) as [|r [|r' l]]; reflexivity.
Qed.

Lemma or_else_null (v : value) : exists j, or_else v null = Some j.
Proof.
  unfold or_else. destruct (truthy v) eqn:Hv.
  - destruct v as [j|]; [exists j; reflexivity | discriminate].
  - exists JNull; reflexivity.
Qed.

Lemma written_tag_text (a : object) :
  optional_text (own a "tag") ->
  nullable_text_of (or_else (own a "tag") null) = Some (written_tag a).
Proof.
  unfold written_tag, or_else.
  intros [-> | [s ->]]; [reflexivity|].
  unfold truthy. destruct (s =? "")%string; reflexivity.
Qed.

Lemma run_upsert (a : object) (u k c : string) (st : Store) :
  available st ->
  own a "user_id" = str u -> own a "key" = str k -> own a "content" = str c ->
  optional_text (own a "tag") ->
  run (upsert_query a) st
  = (ok (JArr (map row_json (rows_of u k (upserted a u k c st)))),
     upserted a u k c st).
Proof.
  intros Hav Hu Hk Hc Ht. unfold run. rewrite Hav.
  change (well_formed (upsert_query a)) with true. cbv iota; simpl negb; cbv iota.
  pose proof (written_tag_text a Ht) as Htag.
  unfold upserted.
  unfold upsert_query, returning, upsert, from; simpl q_verb.
  rewrite Hu, Hk, Hc.
  destruct (or_else_null (own a "tag")) as [jt Hjt].
  destruct (or_else_null (own a "metadata")) as [jm Hjm].
  rewrite Hjt, Hjm in *. cbn [literal own String.eqb Ascii.eqb Bool.eqb text_of str].
  rewrite Htag. simpl.
  unfold answer; simpl.
  change (parse_columns "*") with (Some all_columns). simpl.
  rewrite map_map. unfold rows_of, written_metadata. rewrite Hjm.
  reflexivity.
Qed.

Lemma exec_run (q : Query) (st : Store) : exec q st = run q st.
Proof. reflexivity. Qed.

Lemma record_row (r : Row) : record (row_json r) = memory r.
Proof. reflexivity. Qed.

Lemma not_found_text (k : string) :
  not_found (str k)
  = success [ ("status", JStr "not_found");
              ("message", JStr ("No memory found with key '" ++ k ++ "'")) ].
Proof. reflexivity. Qed.

Lemma saved_text (k : string) :
  saved (str k)
  = success [ ("status", JStr "success");
              ("message", JStr ("Memory '" ++ k ++ "' saved successfully"));
              ("key", JStr k) ].
Proof. reflexivity. Qed.

Lemma deleted_text (k : string) :
  deleted (str k)
  = success [ ("status", JStr "success");
              ("message", JStr ("Memory '" ++ k ++ "' deleted successfully"));
              ("key", JStr k) ].
Proof. reflexivity. Qed.

Lemma get_memory_table (g : object) (u k : string) (w : World Store) :
  available (store w) ->
  own g "user_id" = str u -> own g "key" = str k ->
  call_tool "get_memory" (Some g) w
  = (match rows_of u k (store w) with
     | [ r ] => memory r
     | _ => not_found (str k)
     end, mkWorld (store w) (calls w ++ [ lookup u k ])%list).
Proof.
  intros Hav Hu Hk. rewrite get_memory_run, (lookup_query_text g u k Hu Hk).
  cbv zeta. unfold after. rewrite exec_run.
  rewrite (run_lookup u k _ Hav). cbn [fst snd]. rewrite Hk.
  destruct (rows_of _ _ _) as [|r [|r' l]]; reflexivity.
Qed.

Lemma create_memory_table (a : object) (u k c : string) (w : World Store) :
  available (store w) ->
  own a "user_id" = str u -> own a "key" = str k -> own a "content" = str c ->
  optional_text (own a "tag") ->
  call_tool "create_memory" (Some a) w
  = (saved (str k),
     mkWorld (upserted a u k c (store w)) (calls w ++ [ upsert_query a ])%list).
Proof.
  intros Hav Hu Hk Hc Ht. rewrite create_memory_run. unfold after.
  rewrite exec_run, (run_upsert a u k c _ Hav Hu Hk Hc Ht). cbn [fst snd error ok].
  rewrite Hk. reflexivity.
Qed.

Lemma upserted_rows_of (a : object) (u k c : string) (st : Store) :
  unique_keys st ->
  rows_of u k (upserted a u k c st)
  = [ mkRow u k c (written_tag a) (written_metadata a)
            (created u k (clock st) (rows st)) (clock st) ].
Proof. intro Hnd. apply merge_rows_of. exact Hnd. Qed.


(** C1: on a working store that honours the uniqueness constraint, a
    create call with string [user_id], [key] and [content] answers
    [{ status: 'success', message, key }], and a get call for the same
    pair then answers the record of the pair: its [content] is the content
    created, its [tag] and [metadata] what the create call wrote, its
    [updated_at] the time of the create call. *)
Theorem create_then_get (w : World Store) (a g : object) (u k c : string) :
  available (store w) -> unique_keys (store w) ->
  own a "user_id" = str u -> own a "key" = str k -> own a "content" = str c ->
  optional_text (own a "tag") ->
  own g "user_id" = str u -> own g "key" = str k ->
  fst (call_tool "create_memory" (Some a) w)
  = success [ ("status", JStr "success");
              ("message", JStr ("Memory '" ++ k ++ "' saved successfully"));
              ("key", JStr k) ]
  /\ exists created_at : nat,
      fst (call_tool "get_memory" (Some g)
             (snd (call_tool "create_memory" (Some a) w)))
      = success [ ("key", JStr k);
                  ("content", JStr c);
                  ("tag", nullable JStr (written_tag a));
                  ("metadata", nullable (fun j => j) (written_metadata a));
                  ("created_at", timestamp created_at);
                  ("updated_at", timestamp (clock (store w))) ].
Proof.
  intros Hav Hnd Hu Hk Hc Ht Hgu Hgk.
  rewrite (create_memory_table a u k c w Hav Hu Hk Hc Ht). cbn [fst snd].
  split; [reflexivity|].
  exists (created u k (clock (store w)) (rows (store w))).
  rewrite (get_memory_table g u k) by first [assumption | reflexivity].
  cbn [fst store].
  rewrite (upserted_rows_of a u k c _ Hnd). reflexivity.
Qed.









Lemma run_delete (u k : string) (st : Store) :
  available st ->
  run (removal u k) st = (ok JNull, forgotten u k st).
Proof.
  intro Hav. unfold run. rewrite Hav.
  change (well_formed (removal u k)) with true. cbv iota; simpl negb; cbv iota.
  change (q_verb (removal u k)) with Delete. cbv iota.
  unfold forgotten. f_equal. f_equal.
  apply filter_ext. intro r. unfold same_key. cbn. rewrite andb_true_r.
  reflexivity.
Qed.

Lemma forgotten_rows_of (u k : string) (st : Store) :
  rows_of u k (forgotten u k st) = [].
Proof.
  unfold rows_of, forgotten; cbn [rows].
  induction (rows st) as [|r l IH]; simpl; [reflexivity|].
  destruct (same_key u k r) eqn:Hr; simpl; [exact IH|].
  rewrite Hr. exact IH.
Qed.

Lemma rows_of_absent (u k : string) (st : Store) :
  (forall r, In r (rows st) -> key_of r <> (u, k)) -> rows_of u k st = [].
Proof.
  intro Hno. apply filter_same_key_absent. intro Hin.
  apply in_map_iff in Hin. destruct Hin as (r & Hk & Hr).
  exact (Hno r Hr Hk).
Qed.

(** C3: on a working store with no row for the pair, [get_memory] answers
    [{ status: 'not_found', message }], with no [isError]; on any store, a
    point lookup answered with the error PGRST116 and no data gives the
    same answer, and an error with any other code comes back as the error
    payload ["Database error: " ++ message], [isError] set. *)
Theorem get_memory_absent :
  (forall (w : World Store) (g : object) (u k : string),
      available (store w) ->
      own g "user_id" = str u -> own g "key" = str k ->
      (forall r, In r (rows (store w)) -> key_of r <> (u, k)) ->
      fst (call_tool "get_memory" (Some g) w)
      = success [ ("status", JStr "not_found");
                  ("message", JStr ("No memory found with key '" ++ k ++ "'")) ]
      /\ isError (fst (call_tool "get_memory" (Some g) w)) = None)
  /\ (forall (S : Type) (RS : RecordStore S) (w : World S) (g : object)
             (u k : string) (e : PostgrestError),
        own g "user_id" = str u -> own g "key" = str k ->
        fst (exec (lookup u k) (store w)) = mkResponse JNull (Some e) ->
        code e = "PGRST116" ->
        fst (call_tool "get_memory" (Some g) w)
        = success [ ("status", JStr "not_found");
                    ("message", JStr ("No memory found with key '" ++ k ++ "'")) ])
  /\ (forall (S : Type) (RS : RecordStore S) (w : World S) (g : object)
             (q : Query) (e : PostgrestError),
        lookup_query g = inl q ->
        error (fst (exec q (store w))) = Some e ->
        code e <> "PGRST116" ->
        fst (call_tool "get_memory" (Some g) w)
        = failure ("Database error: " ++ message e)
        /\ isError (fst (call_tool "get_memory" (Some g) w)) = Some true).
Proof.
  split; [|split].
  - intros w g u k Hav Hu Hk Hno.
    rewrite (get_memory_table g u k w Hav Hu Hk). cbn [fst].
    rewrite (rows_of_absent u k _ Hno). split; reflexivity.
  - intros S RS w g u k e Hu Hk Hr Hcode.
    rewrite get_memory_run, (lookup_query_text g u k Hu Hk). cbv zeta.
    rewrite Hr. cbn [fst error data]. rewrite Hcode, Hk. reflexivity.
  - intros S RS w g q e Hq He Hcode.
    rewrite (store_failure_wrapped "get_memory" g q w e eq_refl Hq He
               (fun _ => Hcode)).
    split; reflexivity.
Qed.

Lemma forgotten_twice (u k : string) (st : Store) :
  forgotten u k (forgotten u k st) = forgotten u k st.
Proof.
  unfold forgotten; cbn [rows clock]. f_equal.
  induction (rows st) as [|r l IH]; simpl; [reflexivity|].
  destruct (same_key u k r) eqn:Hr; simpl; [exact IH|].
  rewrite Hr; simpl. rewrite IH. reflexivity.
Qed.

Lemma forget_memory_table (a : object) (u k : string) (w : World Store) :
  available (store w) ->
  own a "user_id" = str u -> own a "key" = str k ->
  call_tool "forget_memory" (Some a) w
  = (deleted (str k),
     mkWorld (forgotten u k (store w)) (calls w ++ [ removal u k ])%list).
Proof.
  intros Hav Hu Hk.
  rewrite forget_memory_run, (delete_query_text a u k Hu Hk). unfold after.
  rewrite exec_run, (run_delete u k _ Hav). cbn [fst snd error ok].
  rewrite Hk. reflexivity.
Qed.

(** C4: on a working store a forget call answers
    [{ status: 'success', message, key }] whether or not the pair has a
    row, and leaves no row for the pair; a get call for the pair then
    answers [{ status: 'not_found', message }], not an error; a second
    forget call answers as the first and leaves the store as the first
    left it. *)
Theorem forget_then_get (w : World Store) (a g : object) (u k : string) :
  available (store w) ->
  own a "user_id" = str u -> own a "key" = str k ->
  own g "user_id" = str u -> own g "key" = str k ->
  fst (call_tool "forget_memory" (Some a) w)
  = success [ ("status", JStr "success");
              ("message", JStr ("Memory '" ++ k ++ "' deleted successfully"));
              ("key", JStr k) ]
  /\ isError (fst (call_tool "forget_memory" (Some a) w)) = None
  /\ rows_of u k (store (snd (call_tool "forget_memory" (Some a) w))) = []
  /\ fst (call_tool "get_memory" (Some g)
            (snd (call_tool "forget_memory" (Some a) w)))
     = success [ ("status", JStr "not_found");
                 ("message", JStr ("No memory found with key '" ++ k ++ "'")) ]
  /\ fst (call_tool "forget_memory" (Some a)
            (snd (call_tool "forget_memory" (Some a) w)))
     = fst (call_tool "forget_memory" (Some a) w)
  /\ store (snd (call_tool "forget_memory" (Some a)
                   (snd (call_tool "forget_memory" (Some a) w))))
     = store (snd (call_tool "forget_memory" (Some a) w)).
Proof.
  intros Hav Hu Hk Hgu Hgk.
  rewrite (forget_memory_table a u k w Hav Hu Hk). cbn [fst snd].
  rewrite (forget_memory_table a u k) by first [assumption | reflexivity].
  cbn [fst snd store].
  repeat split.
  - apply forgotten_rows_of.
  - rewrite (get_memory_table g u k) by first [assumption | reflexivity].
    cbn [fst store]. rewrite forgotten_rows_of. reflexivity.
  - apply forgotten_twice.
Qed.

(** C5: whatever the tool name, the argument bag and the store, the
    handler answers a response envelope: one text item, with a success
    payload, or with an error payload and [isError] set.  A tool of the
    catalog either awaits its one query, and an error the store answers it
    with, the PGRST116 of the point lookup of [get_memory] apart, comes
    back as the error payload ["Database error: " ++ message]; or an
    argument has no text, and the TypeError comes back as the error
    payload with no query awaited. *)
Theorem call_tool_never_throws (S : Type) (RS : RecordStore S)
    (name : string) (args : option object) (w : World S) :
  ((exists payload,
       fst (call_tool name args w)
       = mkResult [ mkText "text" (JSON_stringify (JObj payload)) ] None)
   \/ (exists message,
         fst (call_tool name args w)
         = mkResult
             [ mkText "text"
                 (JSON_stringify
                    (JObj [ ("error", JStr message); ("status", JStr "error") ])) ]
             (Some true)))
  /\ (forall a q, args = Some a -> mem name tool_names = true ->
        query_of name a = inl q ->
        snd (call_tool name args w) = after w q
        /\ forall e,
            error (fst (exec q (store w))) = Some e ->
            (name = "get_memory" -> code e <> "PGRST116") ->
            fst (call_tool name args w)
            = failure ("Database error: " ++ message e)
            /\ isError (fst (call_tool name args w)) = Some true)
  /\ (forall a e, args = Some a -> mem name tool_names = true ->
        query_of name a = inr e ->
        call_tool name args w = (failure e, w)).
Proof.
  split; [apply call_tool_envelope|]. split.
  - intros a q -> Hname Hq.
    pose proof (call_tool_run name a w Hname) as Hrun. rewrite Hq in Hrun.
    split; [exact Hrun|].
    intros e He Hcode.
    rewrite (store_failure_wrapped name a q w e Hname Hq He Hcode).
    split; reflexivity.
  - intros a e -> Hname Hq.
    pose proof (call_tool_run name a w Hname) as Hrun. rewrite Hq in Hrun.
    exact Hrun.
Qed.

(** C9: a name outside the catalog is answered with the error payload
    [{ error: "Unknown tool: " ++ name, status: 'error' }], [isError] set,
    and the world is left as it was: no query is awaited. *)
Theorem unknown_tool_error (S : Type) (RS : RecordStore S)
    (name : string) (args : option object) (w : World S) :
  mem name tool_names = false ->
  fst (call_tool name args w)
  = mkResult
      [ mkText "text"
          (JSON_stringify
             (JObj [ ("error", JStr ("Unknown tool: " ++ name));
                     ("status", JStr "error") ])) ]
      (Some true)
  /\ isError (fst (call_tool name args w)) = Some true
  /\ snd (call_tool name args w) = w
  /\ calls (snd (call_tool name args w)) = calls w.
Proof.
  intro Hname. rewrite (unknown_tool name args w Hname).
  repeat split; reflexivity.
Qed.

Lemma own_without_same (k : string) (a : object) : own (without k a) k = undefined.
Proof.
  induction a as [|[k' v] a IH]; simpl; [reflexivity|].
  destruct (String.eqb_spec k' k) as [-> | Hne]; simpl; [exact IH|].
  destruct (String.eqb_spec k' k); [contradiction | exact IH].
Qed.

Lemma own_without_other (k k' : string) (a : object) :
  k <> k' -> own (without k a) k' = own a k'.
Proof.
  intro Hne. induction a as [|[k0 v] a IH]; simpl; [reflexivity|].
  destruct (String.eqb_spec k0 k) as [-> | Hne0]; simpl.
  - destruct (String.eqb_spec k k'); [contradiction | exact IH].
  - rewrite IH. reflexivity.
Qed.

Lemma list_query_without_tag (a : object) :
  truthy (own a "tag") = false -> list_query (without "tag" a) = list_query a.
Proof.
  intro Ht. unfold list_query, optional.
  rewrite own_without_same, !own_without_other by discriminate.
  rewrite Ht. reflexivity.
Qed.

Lemma list_query_without_search (a : object) :
  truthy (own a "search") = false ->
  list_query (without "search" a) = list_query a.
Proof.
  intro Hs. unfold list_query, optional.
  rewrite own_without_same, !own_without_other by discriminate.
  rewrite Hs. reflexivity.
Qed.

Lemma sent_tag (a : object) :
  truthy (own a "tag") = false -> own (sent (upsert_query a)) "tag" = null.
Proof.
  intro Ht. unfold sent, upsert_query, returning, upsert, from; cbn [q_verb].
  unfold or_else at 1. rewrite Ht.
  destruct (or_else_null (own a "metadata")) as [jm ->].
  destruct (own a "user_id"), (own a "key"), (own a "content"); reflexivity.
Qed.

Lemma sent_metadata (a : object) :
  truthy (own a "metadata") = false ->
  own (sent (upsert_query a)) "metadata" = null.
Proof.
  intro Hm. unfold sent, upsert_query, returning, upsert, from; cbn [q_verb].
  unfold or_else at 2. rewrite Hm.
  destruct (or_else_null (own a "tag")) as [jt ->].
  destruct (own a "user_id"), (own a "key"), (own a "content"); reflexivity.
Qed.

Lemma written_tag_falsy (a : object) :
  truthy (own a "tag") = false -> written_tag a = None.
Proof. intro Ht. unfold written_tag, or_else. rewrite Ht. reflexivity. Qed.

Lemma written_metadata_falsy (a : object) :
  truthy (own a "metadata") = false -> written_metadata a = None.
Proof. intro Hm. unfold written_metadata, or_else. rewrite Hm. reflexivity. Qed.

(** C10: a falsy [tag] or [metadata] (the empty string among them) is
    sent to the store as [null] by [create_memory], on any store, and the
    reference store persists NULL for it; [list_memories] with a falsy
    [tag] or [search] behaves as with the argument left out. *)
Theorem falsy_arguments_are_absent :
  (forall (S : Type) (RS : RecordStore S) (w : World S) (a : object),
      snd (call_tool "create_memory" (Some a) w) = after w (upsert_query a)
      /\ (truthy (own a "tag") = false ->
          own (sent (upsert_query a)) "tag" = null)
      /\ (truthy (own a "metadata") = false ->
          own (sent (upsert_query a)) "metadata" = null))
  /\ (forall (w : World Store) (a : object) (u k c : string),
        available (store w) -> unique_keys (store w) ->
        own a "user_id" = str u -> own a "key" = str k ->
        own a "content" = str c ->
        truthy (own a "tag") = false -> truthy (own a "metadata") = false ->
        exists created_at updated_at : nat,
          rows_of u k (store (snd (call_tool "create_memory" (Some a) w)))
          = [ mkRow u k c None None created_at updated_at ])
  /\ (forall (S : Type) (RS : RecordStore S) (w : World S) (a : object),
        (truthy (own a "tag") = false ->
         call_tool "list_memories" (Some a) w
         = call_tool "list_memories" (Some (without "tag" a)) w)
        /\ (truthy (own a "search") = false ->
            call_tool "list_memories" (Some a) w
            = call_tool "list_memories" (Some (without "search" a)) w)).
Proof.
  split; [|split].
  - intros S RS w a. split; [|split].
    + rewrite create_memory_run. reflexivity.
    + apply sent_tag.
    + apply sent_metadata.
  - intros w a u k c Hav Hnd Hu Hk Hc Ht Hm.
    rewrite (create_memory_table a u k c w Hav Hu Hk Hc (or_introl Ht)).
    cbn [snd store].
    rewrite (upserted_rows_of a u k c _ Hnd), (written_tag_falsy a Ht).
    rewrite (written_metadata_falsy a Hm).
    eexists _, _. reflexivity.
  - intros S RS w a. split; intro Hf.
    + rewrite !list_memories_run, (list_query_without_tag a Hf). reflexivity.
    + rewrite !list_memories_run, (list_query_without_search a Hf). reflexivity.
Qed.

(** *** list_memories *)

Lemma list_query_scan (a : object) (q : Query) :
  list_query a = inl q ->
  exists u t s, to_string (own a "user_id") = inl u /\ q = scan u t s.
Proof.
  unfold list_query, and_then.
  destruct (to_string (own a "user_id")) as [u|]; [|discriminate].
  destruct (optional (own a "tag")) as [t|]; [|discriminate].
  destruct (optional (own a "search")) as [s|]; [|discriminate].
  intros [= <-]. exists u, t, s. split; reflexivity.
Qed.

Lemma run_list (u : string) (t s : option string) (st : Store) :
  available st ->
  run (scan u t s) st
  = (match parse_filters (q_filters (scan u t s)) with
     | Some p =>
         ok (JArr (map listed (sort newer_firstb (filter p (rows st)))))
     | None => bad_request
     end, st).
Proof.
  intro Hav. unfold run. rewrite Hav.
  unfold well_formed, matching, answer.
  change (q_table (scan u t s)) with "memories".
  change (q_verb (scan u t s)) with Select.
  change (q_columns (scan u t s))
    with (Some "memory_key, content, tag, created_at, updated_at").
  change (q_order (scan u t s)) with (Some ("updated_at", false)).
  change (q_single (scan u t s)) with false.
  change (parse_columns "memory_key, content, tag, created_at, updated_at")
    with (Some five).
  destruct (parse_filters (q_filters (scan u t s))) as [p|]; [|reflexivity].
  simpl. rewrite map_map. reflexivity.
Qed.

Lemma parse_filters_head (f : Filter) (fs : list Filter) (p : Row -> bool) :
  parse_filters (f :: fs) = Some p ->
  exists p1 p2, parse_filter f = Some p1 /\ parse_filters fs = Some p2
                /\ forall r, p r = (p1 r && p2 r)%bool.
Proof.
  simpl. destruct (parse_filter f) as [p1|]; [|discriminate].
  destruct (parse_filters fs) as [p2|]; [|discriminate].
  intros [= <-]. exists p1, p2. repeat split.
Qed.

Lemma newer_first_sorted (l : list Row) :
  StronglySorted newer_first (sort newer_firstb l).
Proof.
  apply Sorted_StronglySorted.
  - intros x y z. unfold newer_first. lia.
  - assert (Hs := sort_sorted newer_firstb
                    (fun a b (Hf : newer_firstb a b = false) =>
                       proj2 (Nat.leb_le _ _)
                         (Nat.lt_le_incl _ _ (proj1 (Nat.leb_gt _ _) Hf))) l).
    induction Hs as [|x l' Hs' IH Hhd]; constructor.
    + exact IH.
    + destruct Hhd as [|y l'' Hxy]; constructor.
      apply Nat.leb_le. exact Hxy.
Qed.

Lemma listing_rows (found : list Row) :
  listing (JArr (map listed found)) = memories found.
Proof.
  unfold listing, memories. cbn [member]. simpl String.eqb. cbv iota.
  rewrite length_map. reflexivity.
Qed.

Lemma list_memories_table (u : string) (t s : option string) (a : object)
    (w : World Store) :
  list_query a = inl (scan u t s) ->
  fst (call_tool "list_memories" (Some a) w)
  = match outage (store w) with
    | Some e => database_error e
    | None =>
        match parse_filters (q_filters (scan u t s)) with
        | Some p => memories (sort newer_firstb (filter p (rows (store w))))
        | None => failure "Database error: failed to parse the request"
        end
    end.
Proof.
  intro Hq. rewrite list_memories_run, Hq. cbv zeta. rewrite exec_run. cbn [fst].
  destruct (outage (store w)) as [e|] eqn:Hout.
  - unfold run. rewrite Hout. reflexivity.
  - rewrite (run_list u t s _ Hout). cbn [fst].
    destruct (parse_filters (q_filters (scan u t s))) as [p|]; [|reflexivity].
    cbn [error ok data]. apply listing_rows.
Qed.

Lemma user_filter (u : string) (t s : option string) (p : Row -> bool) (r : Row) :
  parse_filters (q_filters (scan u t s)) = Some p ->
  p r = true -> user_id r = u.
Proof.
  intros Hp Hr.
  change (q_filters (scan u t s))
    with (FEq "user_id" u
          :: (match t with Some t' => [ FEq "tag" t' ] | None => [] end
              ++ match s with
                 | Some s' => [ FOr (search_filter s') ]
                 | None => []
                 end)%list) in Hp.
  destruct (parse_filters_head _ _ _ Hp) as (p1 & p2 & H1 & _ & Hand).
  rewrite Hand in Hr. apply andb_true_iff in Hr. destruct Hr as [Hr _].
  simpl in H1. injection H1 as <-. simpl in Hr.
  apply String.eqb_eq. exact Hr.
Qed.

Lemma optional_falsy (v : value) : truthy v = false -> optional v = inl None.
Proof. intro Hv. unfold optional. rewrite Hv. reflexivity. Qed.

Lemma optional_text_optional (v : value) :
  optional_text v -> exists t, optional v = inl t.
Proof.
  intros [Hv | [s ->]].
  - exists None. apply optional_falsy. exact Hv.
  - unfold optional. destruct (truthy (Some (JStr s))); eexists; reflexivity.
Qed.

Lemma list_memories_answers (w : World Store) (a : object) (u : string) :
  available (store w) ->
  own a "user_id" = str u -> optional_text (own a "tag") ->
  truthy (own a "search") = false ->
  isError (fst (call_tool "list_memories" (Some a) w)) = None.
Proof.
  intros Hav Hu Ht Hs.
  destruct (optional_text_optional _ Ht) as [t Hopt].
  assert (Hq : list_query a = inl (scan u t None)).
  { unfold list_query. rewrite Hu, Hopt, (optional_falsy _ Hs). reflexivity. }
  rewrite (list_memories_table u t None a w Hq), Hav.
  destruct t; reflexivity.
Qed.

(** C7: on a working store a list call with a string [user_id], a [tag]
    that is absent or a string and no search term is answered, and a list
    call that is answered (no error) answers
    [{ count, memories }] where [memories] are rows of the user in the
    store, most recently updated first, each projected to [memory_key],
    [content], [tag], [created_at], [updated_at], and [count] is their
    number. *)
Theorem list_memories_newest_first (w : World Store) (a : object) :
  (forall u : string,
      available (store w) ->
      own a "user_id" = str u -> optional_text (own a "tag") ->
      truthy (own a "search") = false ->
      isError (fst (call_tool "list_memories" (Some a) w)) = None)
  /\ (isError (fst (call_tool "list_memories" (Some a) w)) = None ->
      exists (u : string) (found : list Row),
        to_string (own a "user_id") = inl u
        /\ fst (call_tool "list_memories" (Some a) w)
           = success
               [ ("count", JNum (Z.of_nat (List.length found)));
                 ("memories",
                  JArr (map (fun r =>
                               JObj [ ("memory_key", JStr (memory_key r));
                                      ("content", JStr (content r));
                                      ("tag", nullable JStr (tag r));
                                      ("created_at", timestamp (created_at r));
                                      ("updated_at", timestamp (updated_at r)) ])
                            found)) ]
        /\ StronglySorted newer_first found
        /\ forall r, In r found -> In r (rows (store w)) /\ user_id r = u).
Proof.
  split; [intro u; apply list_memories_answers|].
  destruct (list_query a) as [q|e] eqn:Hq.
  2:{ rewrite list_memories_run, Hq. discriminate. }
  destruct (list_query_scan a q Hq) as (u & t & s & Hu & ->).
  rewrite (list_memories_table u t s a w Hq).
  destruct (outage (store w)) as [e|]; [discriminate|].
  destruct (parse_filters (q_filters (scan u t s))) as [p|] eqn:Hp;
    [|discriminate].
  intros _. exists u. eexists. split; [exact Hu|].
  split; [reflexivity|]. split.
  - apply newer_first_sorted.
  - intros r Hin. apply sort_In in Hin. apply filter_In in Hin.
    destruct Hin as [Hin Hr]. split; [exact Hin|].
    exact (user_filter u t s p r Hp Hr).
Qed.

(** *** ILIKE and containment *)














Lemma given_truthy (v : value) (s : string) :
  given v s -> truthy v = negb (s =? "")%string.
Proof. intros [-> | [-> ->]]; reflexivity. Qed.





(** *** Counting tags in a plain object *)

Lemma mem_In (t : string) (l : list string) : mem t l = true <-> In t l.
Proof.
  induction l as [|x l IH]; simpl; [split; [discriminate | tauto]|].
  rewrite orb_true_iff, String.eqb_eq, IH. reflexivity.
Qed.

Lemma first_occurrences_In (t : string) (l : list string) :
  In t (first_occurrences l) <-> In t l.
Proof.
  induction l as [|x l IH]; simpl; [reflexivity|].
  rewrite filter_In, IH, negb_true_iff, String.eqb_neq.
  destruct (string_dec x t) as [-> | Hne]; [tauto|].
  split; [tauto|]. intros [Heq | Hin]; [contradiction|].
  right; split; [exact Hin | congruence].
Qed.

Lemma first_occurrences_NoDup (l : list string) : NoDup (first_occurrences l).
Proof.
  induction l as [|x l IH]; simpl; constructor.
  - rewrite filter_In, negb_true_iff, String.eqb_neq. tauto.
  - apply NoDup_filter. exact IH.
Qed.

Lemma first_occurrences_snoc (l : list string) (t : string) :
  first_occurrences (l ++ [ t ])
  = if mem t l then first_occurrences l else (first_occurrences l ++ [ t ])%list.
Proof.
  induction l as [|x l IH]; simpl; [reflexivity|].
  rewrite IH. destruct (mem t l); simpl.
  - rewrite orb_true_r. reflexivity.
  - rewrite filter_app; simpl.
    rewrite orb_false_r, (String.eqb_sym t x).
    destruct (x =? t)%string; simpl; [rewrite app_nil_r|]; reflexivity.
Qed.

Lemma occurrences_snoc (l : list string) (t x : string) :
  occurrences x (l ++ [ t ])
  = occurrences x l + (if (t =? x)%string then 1 else 0).
Proof.
  unfold occurrences. rewrite count_occ_app. simpl.
  destruct (string_dec t x) as [-> | Hne].
  - rewrite String.eqb_refl. reflexivity.
  - apply String.eqb_neq in Hne. rewrite Hne. reflexivity.
Qed.

Lemma occurrences_pos (l : list string) (t : string) :
  In t l -> 0 < occurrences t l.
Proof. intro Hin. apply count_occ_In. exact Hin. Qed.

Lemma mem_first_occurrences (t : string) (l : list string) :
  mem t (first_occurrences l) = mem t l.
Proof.
  destruct (mem t l) eqn:Hm.
  - apply (proj2 (mem_In _ _)), (proj2 (first_occurrences_In _ _)),
      (proj1 (mem_In _ _)). exact Hm.
  - destruct (mem t (first_occurrences l)) eqn:Hf; [|reflexivity].
    assert (Ht : mem t l = true).
    { apply (proj2 (mem_In _ _)), (proj1 (first_occurrences_In _ _)),
        (proj1 (mem_In _ _)). exact Hf. }
    congruence.
Qed.

Section Keyed.
Variable g : string -> json.

Lemma own_keyed (l : list string) (t : string) :
  own (map (fun x => (x, g x)) l) t = if mem t l then Some (g t) else None.
Proof.
  induction l as [|x l IH]; simpl; [reflexivity|].
  destruct (String.eqb_spec x t) as [-> | Hne]; simpl; [reflexivity | exact IH].
Qed.

Lemma replace_keyed (l : list string) (t : string) (v : json) :
  NoDup l ->
  replace (map (fun x => (x, g x)) l) t v
  = map (fun x => (x, if (x =? t)%string then v else g x)) l.
Proof.
  induction l as [|x l IH]; simpl; intro Hnd; [reflexivity|].
  inversion Hnd as [|x' l' Hnot Hnd']; subst.
  destruct (String.eqb_spec x t) as [-> | Hne].
  - f_equal. apply map_ext_in. intros y Hy.
    destruct (String.eqb_spec y t) as [-> | _]; [contradiction | reflexivity].
  - f_equal. apply IH. exact Hnd'.
Qed.

End Keyed.

Lemma own_only_not_proto (t : string) : own_only t -> (t =? "__proto__")%string = false.
Proof.
  intro Ho. destruct (String.eqb_spec t "__proto__") as [-> | _];
    [discriminate Ho | reflexivity].
Qed.

(** Counting one more tag. *)
Lemma next_count (seen : list string) (t : string) :
  own_only t ->
  or_zero_plus_one (get (tally seen) t)
  = inl (JNum (Z.of_nat (occurrences t seen) + 1)).
Proof.
  intro Ho. unfold get, tally. rewrite own_keyed, mem_first_occurrences.
  destruct (mem t seen) eqn:Hm.
  - assert (Hpos : 0 < occurrences t seen) by (apply occurrences_pos, mem_In, Hm).
    unfold or_zero_plus_one, or_else, truthy.
    destruct (Z.eqb_spec (Z.of_nat (occurrences t seen)) 0) as [Hz | _]; [lia|].
    reflexivity.
  - rewrite Ho. simpl option_map. cbv iota.
    assert (Hnot : ~ In t seen) by (rewrite <- mem_In; congruence).
    unfold occurrences. rewrite (proj1 (count_occ_not_In string_dec seen t) Hnot).
    reflexivity.
Qed.

Lemma tally_step (seen : list string) (t : string) :
  own_only t ->
  set (tally seen) t (JNum (Z.of_nat (occurrences t seen) + 1))
  = tally (seen ++ [ t ]).
Proof.
  intro Ho. unfold set. rewrite (own_only_not_proto t Ho).
  unfold tally, occurrences.
  rewrite !own_keyed, !mem_first_occurrences, first_occurrences_snoc.
  fold (occurrences t seen).
  destruct (mem t seen) eqn:Hm.
  - rewrite replace_keyed by apply first_occurrences_NoDup.
    apply map_ext. intro x. fold (occurrences x (seen ++ [ t ])).
    rewrite occurrences_snoc, (String.eqb_sym t x).
    destruct (String.eqb_spec x t) as [-> | _]; do 2 f_equal;
      unfold occurrences; lia.
  - assert (Hnot : ~ In t seen) by (rewrite <- mem_In; congruence).
    rewrite map_app. simpl map. f_equal.
    + apply map_ext_in. intros x Hx. fold (occurrences x (seen ++ [ t ])).
      rewrite occurrences_snoc.
      apply (proj1 (first_occurrences_In _ _)) in Hx.
      destruct (String.eqb_spec t x) as [-> | _]; [contradiction|].
      unfold occurrences. do 3 f_equal. lia.
    + fold (occurrences t (seen ++ [ t ])).
      rewrite occurrences_snoc, String.eqb_refl.
      unfold occurrences. rewrite (proj1 (count_occ_not_In string_dec seen t) Hnot).
      reflexivity.
Qed.

Lemma reduce_tally (ts seen : list string) :
  Forall own_only ts ->
  reduce (map tag_row ts) (tally seen) = inl (tally (seen ++ ts)).
Proof.
  revert seen. induction ts as [|t ts IH]; intros seen Hsafe; simpl.
  - rewrite app_nil_r. reflexivity.
  - inversion Hsafe as [|t' ts' Ht Hts]; subst.
    unfold count_tag. simpl member. cbv iota. simpl to_string. cbv iota.
    rewrite (next_count seen t Ht), (tally_step seen t Ht), (IH _ Hts),
      <- app_assoc.
    reflexivity.
Qed.

(** *** list_tags *)

Lemma run_tags (u : string) (st : Store) :
  available st ->
  run (tag_scan u) st = (ok (JArr (map tag_row (tags_of u st))), st).
Proof.
  intro Hav. unfold run. rewrite Hav.
  change (well_formed (tag_scan u)) with true. cbv iota; simpl negb; cbv iota.
  change (q_verb (tag_scan u)) with Select. cbv iota.
  unfold answer.
  change (q_columns (tag_scan u)) with (Some "tag").
  change (q_order (tag_scan u)) with (@None (string * bool)).
  change (q_single (tag_scan u)) with false. cbv iota beta.
  change (parse_columns "tag") with (Some [ "tag" ]).
  unfold parse_order. cbv iota beta. do 3 f_equal. rewrite map_map.
  unfold tags_of.
  induction (rows st) as [|r l IH]; [reflexivity|].
  simpl filter. simpl flat_map. rewrite map_app, <- IH.
  change (matching (tag_scan u) r)
    with ((user_id r =? u)%string
          && (match nullable JStr (tag r) with JNull => false | _ => true end
              && true))%bool.
  destruct (user_id r =? u)%string; [|reflexivity].
  destruct (tag r) as [t|] eqn:Ht; [|reflexivity].
  simpl. unfold tag_row. rewrite Ht. reflexivity.
Qed.

Lemma list_tags_table (a : object) (u : string) (w : World Store) :
  available (store w) -> own a "user_id" = str u ->
  Forall own_only (tags_of u (store w)) ->
  fst (call_tool "list_tags" (Some a) w)
  = tag_list (tally (tags_of u (store w))).
Proof.
  intros Hav Hu Hsafe. rewrite list_tags_run, (tags_query_text a u Hu). cbv zeta.
  rewrite exec_run, (run_tags u _ Hav). cbn [fst error ok data tagCounts].
  change (@nil (string * json)) with (tally []).
  rewrite (reduce_tally _ [] Hsafe). reflexivity.
Qed.

Lemma filter_partition {A : Type} (f : A -> bool) (l : list A) :
  Permutation (filter f l ++ filter (fun x => negb (f x)) l) l.
Proof.
  induction l as [|x l IH]; simpl; [reflexivity|].
  destruct (f x); simpl.
  - constructor. exact IH.
  - rewrite <- Permutation_middle. constructor. exact IH.
Qed.

Lemma index_leb_total (a b : string * json) :
  index_leb a b = false -> index_leb b a = true.
Proof.
  unfold index_leb. rewrite N.leb_gt, N.leb_le. apply N.lt_le_incl.
Qed.

Lemma Object_entries_permutation (o : object) :
  Permutation (Object_entries o) o.
Proof.
  unfold Object_entries.
  rewrite sort_permutation. apply filter_partition.
Qed.

Lemma Object_entries_keys (o : object) :
  exists indices,
    map fst (Object_entries o)
    = (indices ++ filter (fun k => negb (is_index k)) (map fst o))%list
    /\ Forall (fun k => is_index k = true) indices
    /\ StronglySorted (fun k k' => (index_of k <= index_of k')%N) indices.
Proof.
  unfold Object_entries.
  exists (map fst (sort index_leb (filter (fun p => is_index (fst p)) o))).
  split; [|split].
  - rewrite map_app. f_equal.
    induction o as [|[k v] o IH]; simpl; [reflexivity|].
    destruct (is_index k); simpl; rewrite IH; reflexivity.
  - apply Forall_forall. intros k Hk.
    apply in_map_iff in Hk. destruct Hk as (p & <- & Hp).
    apply sort_In, filter_In in Hp. apply Hp.
  - assert (Hs : StronglySorted (fun a b => index_leb a b = true)
                   (sort index_leb (filter (fun p => is_index (fst p)) o))).
    { apply Sorted_StronglySorted.
      - intros x y z. unfold index_leb. rewrite !N.leb_le. apply N.le_trans.
      - apply sort_sorted. apply index_leb_total. }
    induction Hs as [|p l Hs IH Hall]; simpl; constructor.
    + exact IH.
    + apply Forall_map. eapply Forall_impl; [|exact Hall].
      intros q Hq. apply N.leb_le. exact Hq.
Qed.

Lemma tally_keys (ts : list string) : map fst (tally ts) = first_occurrences ts.
Proof.
  unfold tally. rewrite map_map. simpl. apply map_id.
Qed.

Lemma tags_of_In (u t : string) (st : Store) :
  In t (tags_of u st)
  <-> exists r, In r (rows st) /\ user_id r = u /\ tag r = Some t.
Proof.
  unfold tags_of. rewrite in_flat_map. split.
  - intros (r & Hr & Ht). exists r. split; [exact Hr|].
    destruct (String.eqb_spec (user_id r) u) as [Hu | _]; [|destruct Ht].
    destruct (tag r) as [t'|]; [|destruct Ht].
    destruct Ht as [<- | []]. split; [exact Hu | reflexivity].
  - intros (r & Hr & Hu & Ht). exists r. split; [exact Hr|].
    rewrite Hu, String.eqb_refl, Ht. left; reflexivity.
Qed.

Lemma tags_of_occurrences (u t : string) (st : Store) :
  occurrences t (tags_of u st) = List.length (bearing u t st).
Proof.
  unfold occurrences, tags_of, bearing.
  induction (rows st) as [|r l IH]; [reflexivity|].
  simpl flat_map. simpl filter. rewrite count_occ_app, IH.
  destruct (user_id r =? u)%string; [|reflexivity].
  destruct (tag r) as [t'|]; [|reflexivity]. simpl.
  destruct (string_dec t' t) as [-> | Hne].
  - rewrite String.eqb_refl. reflexivity.
  - apply String.eqb_neq in Hne. rewrite Hne. reflexivity.
Qed.

(** C8 (amended): on a working store, for a user none of whose tags names
    a property of [Object.prototype], [list_tags] answers
    [{ tags: [{ tag, count }, ...] }] with one entry per distinct non-null
    tag of the user's rows, each with the number of the user's rows
    bearing it; rows with a null tag add nothing; the entries whose tag is
    an array index come first, in ascending numeric order, and the others
    follow in the order of their first occurrence among the rows
    returned. *)
Theorem list_tags_counts (w : World Store) (a : object) (u : string) :
  available (store w) -> own a "user_id" = str u ->
  Forall own_only (tags_of u (store w)) ->
  exists entries : list (string * nat),
    fst (call_tool "list_tags" (Some a) w)
    = success
        [ ("tags",
           JArr (map (fun e => JObj [ ("tag", JStr (fst e));
                                      ("count", JNum (Z.of_nat (snd e))) ])
                     entries)) ]
    /\ NoDup (map fst entries)
    /\ (forall t, In t (map fst entries)
                  <-> exists r, In r (rows (store w))
                                /\ user_id r = u /\ tag r = Some t)
    /\ (forall t c, In (t, c) entries ->
                    c = List.length (bearing u t (store w)))
    /\ exists indices,
         map fst entries
         = (indices
            ++ filter (fun k => negb (is_index k))
                      (first_occurrences (tags_of u (store w))))%list
         /\ Forall (fun k => is_index k = true) indices
         /\ StronglySorted (fun k k' => (index_of k <= index_of k')%N) indices.
Proof.
  intros Hav Hu Hsafe.
  pose proof (list_tags_table a u w Hav Hu Hsafe) as Hrun.
  set (ts := tags_of u (store w)) in *.
  pose proof (Object_entries_permutation (tally ts)) as Hperm.
  assert (Hcounted : forall e, In e (Object_entries (tally ts)) ->
                               snd e = JNum (Z.of_nat (occurrences (fst e) ts))).
  { intros e He. apply (Permutation_in _ Hperm) in He.
    unfold tally in He. apply in_map_iff in He.
    destruct He as (x & <- & _). reflexivity. }
  exists (map (fun e => (fst e, occurrences (fst e) ts)) (Object_entries (tally ts))).
  assert (Hfst : map fst (map (fun e : string * json => (fst e, occurrences (fst e) ts))
                              (Object_entries (tally ts)))
                 = map fst (Object_entries (tally ts))).
  { rewrite map_map. reflexivity. }
  rewrite Hfst.
  assert (Hkeys : Permutation (map fst (Object_entries (tally ts)))
                              (first_occurrences ts)).
  { rewrite <- tally_keys. apply Permutation_map. exact Hperm. }
  split; [|split; [|split; [|split]]].
  - rewrite Hrun. unfold tag_list. do 3 f_equal. rewrite map_map. f_equal.
    apply map_ext_in. intros e He. unfold entry. cbn [fst snd].
    rewrite (Hcounted e He). reflexivity.
  - apply (Permutation_NoDup (Permutation_sym Hkeys)).
    apply first_occurrences_NoDup.
  - intro t. split.
    + intro Hin. apply (Permutation_in _ Hkeys) in Hin.
      apply (proj1 (tags_of_In u t (store w))).
      apply (proj1 (first_occurrences_In t ts)). exact Hin.
    + intro Hr. apply (Permutation_in _ (Permutation_sym Hkeys)).
      apply (proj2 (first_occurrences_In t ts)).
      apply (proj2 (tags_of_In u t (store w))). exact Hr.
  - intros t c Hin. apply in_map_iff in Hin.
    destruct Hin as (e & [= <- <-] & _).
    unfold ts. apply tags_of_occurrences.
  - destruct (Object_entries_keys (tally ts)) as (indices & Heq & Hidx & Hsorted).
    exists indices. rewrite tally_keys in Heq. repeat split; assumption.
Qed.

(** ** The statements at concrete calls *)

Import Example.

Lemma create_then_get_witness :
  fst (call_tool "create_memory" (Some create_sushi) fresh)
  = success [ ("status", JStr "success");
              ("message", JStr "Memory 'favorite_food' saved successfully");
              ("key", JStr "favorite_food") ]
  /\ exists created_at : nat,
      fst (call_tool "get_memory" (Some favorite_food)
             (snd (call_tool "create_memory" (Some create_sushi) fresh)))
      = success [ ("key", JStr "favorite_food");
                  ("content", JStr "sushi");
                  ("tag", nullable JStr (written_tag create_sushi));
                  ("metadata", nullable (fun j => j) (written_metadata create_sushi));
                  ("created_at", timestamp created_at);
                  ("updated_at", timestamp (clock (store fresh))) ].
Proof.
  apply (create_then_get fresh create_sushi favorite_food
           "u1" "favorite_food" "sushi"); try reflexivity.
  - constructor.
  - right. exists "personal". reflexivity.
Defined.


Lemma get_memory_absent_witness :
  (fst (call_tool "get_memory" (Some nonexistent) fresh)
   = success [ ("status", JStr "not_found");
               ("message", JStr "No memory found with key 'nonexistent'") ]
   /\ isError (fst (call_tool "get_memory" (Some nonexistent) fresh)) = None)
  /\ fst (exec (lookup "u1" "nonexistent") (store two_rows))
     = mkResponse JNull (Some no_rows)
  /\ fst (call_tool "get_memory" (Some nonexistent) two_rows)
     = success [ ("status", JStr "not_found");
                 ("message", JStr "No memory found with key 'nonexistent'") ]
  /\ (fst (call_tool "get_memory" (Some favorite_food) down)
      = failure "Database error: fetch failed"
      /\ isError (fst (call_tool "get_memory" (Some favorite_food) down))
         = Some true).
Proof.
  destruct get_memory_absent as (Habsent & Hnone & Hother).
  split; [|split; [|split]].
  - apply (Habsent fresh nonexistent "u1" "nonexistent"); try reflexivity.
    intros r [].
  - reflexivity.
  - apply (Hnone Store table_store two_rows nonexistent "u1" "nonexistent"
             no_rows); reflexivity.
  - apply (Hother Store table_store down favorite_food
             (lookup "u1" "favorite_food") unreachable);
      [reflexivity | reflexivity | discriminate].
Defined.

Lemma forget_then_get_witness :
  rows_of "u1" "food" (store two_rows) = [ food ]
  /\ (fst (call_tool "forget_memory" (Some food_key) two_rows)
      = success [ ("status", JStr "success");
                  ("message", JStr "Memory 'food' deleted successfully");
                  ("key", JStr "food") ]
      /\ isError (fst (call_tool "forget_memory" (Some food_key) two_rows)) = None
      /\ rows_of "u1" "food"
           (store (snd (call_tool "forget_memory" (Some food_key) two_rows)))
         = []
      /\ fst (call_tool "get_memory" (Some food_key)
                (snd (call_tool "forget_memory" (Some food_key) two_rows)))
         = success [ ("status", JStr "not_found");
                     ("message", JStr "No memory found with key 'food'") ]
      /\ fst (call_tool "forget_memory" (Some food_key)
                (snd (call_tool "forget_memory" (Some food_key) two_rows)))
         = fst (call_tool "forget_memory" (Some food_key) two_rows)
      /\ store (snd (call_tool "forget_memory" (Some food_key)
                       (snd (call_tool "forget_memory" (Some food_key) two_rows))))
         = store (snd (call_tool "forget_memory" (Some food_key) two_rows)))
  /\ rows (store (snd (call_tool "forget_memory" (Some food_key) two_rows)))
     = [ path ]
  /\ rows_of "u1" "nonexistent" (store two_rows) = []
  /\ fst (call_tool "forget_memory" (Some nonexistent) two_rows)
     = success [ ("status", JStr "success");
                 ("message", JStr "Memory 'nonexistent' deleted successfully");
                 ("key", JStr "nonexistent") ].
Proof.
  split; [reflexivity|]. split; [|split; [reflexivity|split; [reflexivity|]]].
  - apply (forget_then_get two_rows food_key food_key "u1" "food");
      reflexivity.
  - apply (forget_then_get two_rows nonexistent nonexistent "u1" "nonexistent");
      reflexivity.
Defined.

Lemma call_tool_never_throws_witness :
  (fst (call_tool "forget_memory" (Some favorite_food) down)
   = failure "Database error: fetch failed"
   /\ isError (fst (call_tool "forget_memory" (Some favorite_food) down))
      = Some true)
  /\ call_tool "get_memory" (Some no_text) two_rows
     = (failure "Cannot convert object to primitive value", two_rows).
Proof.
  destruct (call_tool_never_throws Store table_store "forget_memory"
              (Some favorite_food) down) as (_ & Hcat & _).
  destruct (call_tool_never_throws Store table_store "get_memory"
              (Some no_text) two_rows) as (_ & _ & Hthrown).
  split.
  - destruct (Hcat favorite_food (removal "u1" "favorite_food")
                eq_refl eq_refl eq_refl) as [_ Hwrap].
    apply (Hwrap unreachable); [reflexivity | discriminate].
  - apply (Hthrown no_text "Cannot convert object to primitive value");
      reflexivity.
Defined.


Lemma list_memories_newest_first_witness :
  isError (fst (call_tool "list_memories" (Some everything) two_rows)) = None
  /\ exists (u : string) (found : list Row),
      to_string (own everything "user_id") = inl u
      /\ fst (call_tool "list_memories" (Some everything) two_rows)
         = success
             [ ("count", JNum (Z.of_nat (List.length found)));
               ("memories",
                JArr (map (fun r =>
                             JObj [ ("memory_key", JStr (memory_key r));
                                    ("content", JStr (content r));
                                    ("tag", nullable JStr (tag r));
                                    ("created_at", timestamp (created_at r));
                                    ("updated_at", timestamp (updated_at r)) ])
                          found)) ]
      /\ StronglySorted newer_first found
      /\ forall r, In r found -> In r (rows (store two_rows)) /\ user_id r = u.
Proof.
  destruct (list_memories_newest_first two_rows everything) as [Hok Hlist].
  assert (Hanswered :
    isError (fst (call_tool "list_memories" (Some everything) two_rows)) = None).
  { apply (Hok "u1"); try reflexivity. left; reflexivity. }
  split; [exact Hanswered|].
  apply Hlist. exact Hanswered.
Defined.

Lemma list_tags_counts_witness :
  exists entries : list (string * nat),
    fst (call_tool "list_tags" (Some everything) four_tags)
    = success
        [ ("tags",
           JArr (map (fun e => JObj [ ("tag", JStr (fst e));
                                      ("count", JNum (Z.of_nat (snd e))) ])
                     entries)) ]
    /\ NoDup (map fst entries)
    /\ (forall t, In t (map fst entries)
                  <-> exists r, In r (rows (store four_tags))
                                /\ user_id r = "u1" /\ tag r = Some t)
    /\ (forall t c, In (t, c) entries ->
                    c = List.length (bearing "u1" t (store four_tags)))
    /\ exists indices,
         map fst entries
         = (indices
            ++ filter (fun k => negb (is_index k))
                      (first_occurrences (tags_of "u1" (store four_tags))))%list
         /\ Forall (fun k => is_index k = true) indices
         /\ StronglySorted (fun k k' => (index_of k <= index_of k')%N) indices.
Proof.
  apply (list_tags_counts four_tags everything "u1"); try reflexivity.
  repeat constructor.
Defined.

Lemma unknown_tool_error_witness :
  fst (call_tool "delete_all" (Some everything) two_rows)
  = mkResult
      [ mkText "text"
          (JSON_stringify
             (JObj [ ("error", JStr "Unknown tool: delete_all");
                     ("status", JStr "error") ])) ]
      (Some true)
  /\ isError (fst (call_tool "delete_all" (Some everything) two_rows)) = Some true
  /\ snd (call_tool "delete_all" (Some everything) two_rows) = two_rows
  /\ calls (snd (call_tool "delete_all" (Some everything) two_rows))
     = calls two_rows.
Proof.
  apply (unknown_tool_error Store table_store "delete_all" (Some everything)
           two_rows).
  reflexivity.
Defined.

Lemma falsy_arguments_are_absent_witness :
  own (sent (upsert_query create_untagged)) "tag" = null
  /\ (exists created_at updated_at : nat,
        rows_of "u1" "favorite_food"
          (store (snd (call_tool "create_memory" (Some create_untagged) fresh)))
        = [ mkRow "u1" "favorite_food" "sushi" None None created_at updated_at ])
  /\ call_tool "list_memories" (Some (tagged "" "")) two_rows
     = call_tool "list_memories" (Some (without "tag" (tagged "" ""))) two_rows
  /\ call_tool "list_memories" (Some (tagged "" "")) two_rows
     = call_tool "list_memories" (Some (without "search" (tagged "" ""))) two_rows.
Proof.
  destruct falsy_arguments_are_absent as (Hsent & Hkept & Hlist).
  split; [|split; [|split]].
  - apply (Hsent Store table_store fresh create_untagged). reflexivity.
  - apply (Hkept fresh create_untagged "u1" "favorite_food" "sushi");
      try reflexivity.
    constructor.
  - apply (Hlist Store table_store two_rows (tagged "" "")). reflexivity.
  - apply (Hlist Store table_store two_rows (tagged "" "")). reflexivity.
Defined.


(** C8, as stated, fails: with rows tagged b, 1, null, b in that order the
    entry of 1 comes before the entry of b. *)
Lemma list_tags_counts_counterexample :
  fst (call_tool "list_tags" (Some everything) four_tags)
  = success [ ("tags",
               JArr [ JObj [ ("tag", JStr "1"); ("count", JNum 1) ];
                      JObj [ ("tag", JStr "b"); ("count", JNum 2) ] ]) ]
  /\ first_occurrences (tags_of "u1" (store four_tags)) = [ "b"; "1" ].
Proof. vm_compute. split; reflexivity. Qed.

(** A tag that names a property of [Object.prototype] is counted from the
    inherited value: two rows tagged [constructor] give a string, not 2. *)
Lemma list_tags_inherited_name :
  fst (call_tool "list_tags" (Some everything) inherited_tags)
  = success [ ("tags",
               JArr [ JObj [ ("tag", JStr "constructor");
                             ("count",
                              JStr "function Object() { [native code] }11") ] ]) ].
Proof. vm_compute. reflexivity. Qed.

(** The texts the caller reads, line by line. *)
Lemma unknown_tool_text :
  map text
      (Dispatcher.content
         (fst (call_tool "delete_all" (Some everything) two_rows)))
  = [ lines [ "{";
              "  " ++ in_quotes "error" ++ ": " ++ in_quotes "Unknown tool: delete_all" ++ ",";
              "  " ++ in_quotes "status" ++ ": " ++ in_quotes "error";
              "}" ] ].
Proof. vm_compute. reflexivity. Qed.

Lemma get_memory_text :
  map text
      (Dispatcher.content
         (fst (call_tool "get_memory" (Some favorite_food)
                 (snd (call_tool "create_memory" (Some create_ramen) fresh)))))
  = [ lines [ "{";
              "  " ++ in_quotes "key" ++ ": " ++ in_quotes "favorite_food" ++ ",";
              "  " ++ in_quotes "content" ++ ": " ++ in_quotes "ramen" ++ ",";
              "  " ++ in_quotes "tag" ++ ": " ++ in_quotes "food" ++ ",";
              "  " ++ in_quotes "metadata" ++ ": {";
              "    " ++ in_quotes "spicy" ++ ": true";
              "  },";
              "  " ++ in_quotes "created_at" ++ ": " ++ in_quotes "0" ++ ",";
              "  " ++ in_quotes "updated_at" ++ ": " ++ in_quotes "0";
              "}" ] ].
Proof. vm_compute. reflexivity. Qed.

(** * Further properties of the handlers *)

Import Measure.

(** ** Arguments *)

(** X1: a call whose [arguments] are missing is answered with an error
    envelope, whatever the tool name and the store, and the world is left
    as it was: the destructuring throws inside [try], before any query. *)
Theorem undefined_arguments_rejected (S : Type) (RS : RecordStore S)
    (name : string) (w : World S) :
  (exists message, fst (call_tool name None w) = error_result message)
  /\ isError (fst (call_tool name None w)) = Some true
  /\ snd (call_tool name None w) = w.
Proof.
  destruct (no_arguments name w) as [m ->].
  split; [exists m; reflexivity|]. split; reflexivity.
Qed.

Lemma one_query_shape (name : string) (a : object) (q : Query) :
  mem name tool_names = true -> query_of name a = inl q ->
  q_table q = "memories"
  /\ writes q
     = ((name =? "create_memory")%string || (name =? "forget_memory")%string)%bool.
Proof.
  intros Hname.
  destruct (known_tool _ Hname) as [-> | [-> | [-> | [-> | ->]]]];
    unfold query_of; simpl.
  - intros [= <-]. split; reflexivity.
  - unfold lookup_query, and_then.
    destruct (to_string (own a "user_id")); [|discriminate].
    destruct (to_string (own a "key")); [|discriminate].
    intros [= <-]. split; reflexivity.
  - intro Hq. destruct (list_query_scan a q Hq) as (u & t & s & _ & ->).
    split; reflexivity.
  - unfold delete_query, and_then.
    destruct (to_string (own a "user_id")); [|discriminate].
    destruct (to_string (own a "key")); [|discriminate].
    intros [= <-]. split; reflexivity.
  - unfold tags_query, and_then.
    destruct (to_string (own a "user_id")); [|discriminate].
    intros [= <-]. split; reflexivity.
Qed.

(** X2: a call awaits one query when the tool is in the catalog, its
    arguments are present and those put in the request have a text, and
    none otherwise; the query is on the table [memories], and it changes
    the table only for [create_memory] and [forget_memory]: the three
    reading tools never write. *)
Theorem one_query_per_tool (S : Type) (RS : RecordStore S)
    (name : string) (args : option object) (w : World S) :
  calls (snd (call_tool name args w))
  = (calls w
     ++ match args with
        | Some a =>
            if mem name tool_names then
              match query_of name a with
              | inl q => [ q ]
              | inr _ => []
              end
            else []
        | None => []
        end)%list
  /\ forall a q, mem name tool_names = true -> query_of name a = inl q ->
       q_table q = "memories"
       /\ writes q
          = ((name =? "create_memory")%string || (name =? "forget_memory")%string)%bool.
Proof.
  split.
  - destruct args as [a|].
    + destruct (mem name tool_names) eqn:Hname.
      * pose proof (call_tool_run name a w Hname) as Hrun.
        destruct (query_of name a) as [q|e]; rewrite Hrun;
          [reflexivity | rewrite app_nil_r; reflexivity].
      * rewrite (unknown_tool name (Some a) w Hname), app_nil_r. reflexivity.
    + destruct (no_arguments name w) as [m ->]. rewrite app_nil_r. reflexivity.
  - intros a q Hname Hq. exact (one_query_shape name a q Hname Hq).
Qed.

(** X3: a tool reads the arguments its input schema declares and no
    other: two argument bags that agree on the declared arguments get the
    same answer and leave the same world. *)
Theorem undeclared_arguments_ignored (S : Type) (RS : RecordStore S)
    (t : Catalog.Tool) (a a' : object) (w : World S) :
  In t Catalog.tools ->
  (forall k, In k (Catalog.declared t) -> own a k = own a' k) ->
  call_tool (Catalog.name t) (Some a) w = call_tool (Catalog.name t) (Some a') w.
Proof.
  intros Ht Hsame.
  assert (Hu : In "user_id" (Catalog.declared t) -> own a "user_id" = own a' "user_id")
    by apply Hsame.
  assert (Hk : In "key" (Catalog.declared t) -> own a "key" = own a' "key")
    by apply Hsame.
  assert (Hc : In "content" (Catalog.declared t) -> own a "content" = own a' "content")
    by apply Hsame.
  assert (Hg : In "tag" (Catalog.declared t) -> own a "tag" = own a' "tag")
    by apply Hsame.
  assert (Hm : In "metadata" (Catalog.declared t)
               -> own a "metadata" = own a' "metadata")
    by apply Hsame.
  assert (Hs : In "search" (Catalog.declared t) -> own a "search" = own a' "search")
    by apply Hsame.
  clear Hsame.
  destruct Ht as [<- | [<- | [<- | [<- | [<- | []]]]]];
    cbn [Catalog.name Catalog.declared Catalog.inputSchema Catalog.properties
         Catalog.user_id map fst] in *.
  - rewrite !create_memory_run. unfold upsert_query.
    rewrite Hu, Hk, Hc, Hg, Hm by (simpl; tauto). reflexivity.
  - rewrite !get_memory_run. unfold lookup_query.
    rewrite Hu, Hk by (simpl; tauto). reflexivity.
  - rewrite !list_memories_run. unfold list_query.
    rewrite Hu, Hg, Hs by (simpl; tauto). reflexivity.
  - rewrite !forget_memory_run. unfold delete_query.
    rewrite Hu, Hk by (simpl; tauto). reflexivity.
  - rewrite !list_tags_run. unfold tags_query.
    rewrite Hu by (simpl; tauto). reflexivity.
Qed.

Lemma undeclared_arguments_ignored_witness :
  call_tool "get_memory" (Some favorite_food) two_rows
  = call_tool "get_memory" (Some create_sushi) two_rows.
Proof.
  apply (undeclared_arguments_ignored Store table_store
           (Catalog.mkTool "get_memory" "Retrieve a specific memory by key"
              (Catalog.mkSchema "object"
                 [ Catalog.user_id;
                   ("key", Catalog.mkProperty "string"
                             "The key of the memory to retrieve") ]
                 [ "user_id"; "key" ]))
           favorite_food create_sushi two_rows).
  - right; left; reflexivity.
  - intros k [<- | [<- | []]]; reflexivity.
Defined.

Lemma own_literal_absent (fields : list (string * value)) (k : string) :
  ~ In k (map fst fields) -> own (literal fields) k = undefined.
Proof.
  induction fields as [|[k' [v|]] fields IH]; simpl; intro Hnot;
    [reflexivity | | apply IH; tauto].
  destruct (String.eqb_spec k' k) as [-> | _]; [tauto | apply IH; tauto].
Qed.

(** X4: [create_memory] checks no argument itself.  Whatever the argument
    bag, it awaits an upsert on conflict of [user_id,memory_key] whose
    values are [user_id], [key] under the name [memory_key], [content],
    [tag || null] and [metadata || null], a missing argument being a
    missing member, and nothing else; and the call succeeds exactly when
    the store's answer carries no error and the key has a text to quote
    in the message. *)
Theorem create_memory_passes_arguments (S : Type) (RS : RecordStore S)
    (a : object) (w : World S) :
  snd (call_tool "create_memory" (Some a) w) = after w (upsert_query a)
  /\ q_verb (upsert_query a) = Upsert (sent (upsert_query a)) "user_id,memory_key"
  /\ own (sent (upsert_query a)) "user_id" = own a "user_id"
  /\ own (sent (upsert_query a)) "memory_key" = own a "key"
  /\ own (sent (upsert_query a)) "content" = own a "content"
  /\ own (sent (upsert_query a)) "tag" = or_else (own a "tag") null
  /\ own (sent (upsert_query a)) "metadata" = or_else (own a "metadata") null
  /\ (forall k, ~ In k [ "user_id"; "memory_key"; "content"; "tag"; "metadata" ] ->
                own (sent (upsert_query a)) k = undefined)
  /\ (isError (fst (call_tool "create_memory" (Some a) w)) = None
      <-> error (fst (exec (upsert_query a) (store w))) = None
          /\ exists text, to_string (own a "key") = inl text).
Proof.
  split; [rewrite create_memory_run; reflexivity|].
  split; [reflexivity|].
  assert (Hfields :
    own (sent (upsert_query a)) "user_id" = own a "user_id"
    /\ own (sent (upsert_query a)) "memory_key" = own a "key"
    /\ own (sent (upsert_query a)) "content" = own a "content"
    /\ own (sent (upsert_query a)) "tag" = or_else (own a "tag") null
    /\ own (sent (upsert_query a)) "metadata" = or_else (own a "metadata") null).
  { unfold sent, upsert_query, returning, upsert, from; cbn [q_verb].
    destruct (or_else_null (own a "tag")) as [jt ->].
    destruct (or_else_null (own a "metadata")) as [jm ->].
    destruct (own a "user_id"), (own a "key"), (own a "content");
      repeat split; reflexivity. }
  destruct Hfields as (H1 & H2 & H3 & H4 & H5).
  repeat (split; [assumption|]).
  split.
  - intros k Hk. apply own_literal_absent. exact Hk.
  - rewrite create_memory_run. cbn [fst]. unfold saved, quoting.
    destruct (error (fst (exec (upsert_query a) (store w)))) as [e|].
    + split; [intro Hx; discriminate Hx | intros [Hx _]; discriminate Hx].
    + destruct (to_string (own a "key")) as [text|e].
      * split; [intros _; split; [reflexivity | exists text; reflexivity]
               | reflexivity].
      * split; [intro Hx; discriminate Hx | intros [_ [text Hx]]; discriminate Hx].
Qed.

(** ** Answers of the store *)

(** X5: [list_memories] hands on what the store returns: for an answer
    without error whose data is an array, [memories] is that array as it
    came and [count] is its length; for an answer without error and
    without data, reading [length] throws and the call ends in the error
    payload. *)
Theorem list_memories_passes_data (S : Type) (RS : RecordStore S)
    (a : object) (q : Query) (w : World S) :
  list_query a = inl q ->
  (forall l, fst (exec q (store w)) = mkResponse (JArr l) None ->
             fst (call_tool "list_memories" (Some a) w)
             = success [ ("count", JNum (Z.of_nat (List.length l)));
                         ("memories", JArr l) ])
  /\ (fst (exec q (store w)) = mkResponse JNull None ->
      fst (call_tool "list_memories" (Some a) w)
      = failure "Cannot read properties of null (reading 'length')").
Proof.
  intro Hq.
  split; [intros l Hr | intro Hr]; rewrite list_memories_run, Hq; cbv zeta;
    rewrite Hr; reflexivity.
Qed.

Lemma list_memories_passes_data_witness :
  fst (call_tool "list_memories" (Some everything) two_rows)
  = success [ ("count", JNum 2);
              ("memories", JArr [ listed path; listed food ]) ].
Proof.
  apply (proj1 (list_memories_passes_data Store table_store everything
                  (scan "u1" None None) two_rows eq_refl)
           [ listed path; listed food ]).
  reflexivity.
Defined.

(** ** Tag counts add up *)

Lemma total_permutation (l l' : list (string * json)) :
  Permutation l l' -> total l = total l'.
Proof.
  induction 1 as [|e l l' _ IH|e e' l|l l' l'' _ IH1 _ IH2]; simpl;
    [reflexivity | rewrite IH; reflexivity | lia | congruence].
Qed.

Lemma total_keyed (g : string -> nat) (l : list string) :
  total (map (fun x => (x, JNum (Z.of_nat (g x)))) l)
  = Z.of_nat (list_sum (map g l)).
Proof.
  induction l as [|x l IH]; simpl; [reflexivity|]. rewrite IH. lia.
Qed.

Lemma sum_without (g : string -> nat) (x : string) (l : list string) :
  NoDup l -> (~ In x l -> g x = 0) ->
  g x + list_sum (map g (filter (fun y => negb (y =? x)%string) l))
  = list_sum (map g l).
Proof.
  induction l as [|y l IH]; simpl; intros Hnd Hzero.
  - rewrite Hzero by tauto. reflexivity.
  - inversion Hnd as [|y' l' Hnot Hnd']; subst.
    destruct (String.eqb_spec y x) as [-> | Hne]; simpl.
    + f_equal. f_equal.
      clear IH Hzero Hnd Hnd'. induction l as [|z l IH]; simpl; [reflexivity|].
      destruct (String.eqb_spec z x) as [-> | _]; simpl.
      * exfalso. apply Hnot. left; reflexivity.
      * f_equal. apply IH. intro Hin. apply Hnot. right; exact Hin.
    + rewrite <- (IH Hnd'); [lia|].
      intro Hx. apply Hzero. intros [Heq | Hin]; [congruence | contradiction].
Qed.

Lemma occurrences_add_up (l : list string) :
  list_sum (map (fun y => occurrences y l) (first_occurrences l)) = List.length l.
Proof.
  induction l as [|x l IH]; [reflexivity|].
  cbn [first_occurrences map list_sum List.length].
  unfold occurrences at 1. simpl count_occ.
  destruct (string_dec x x) as [_ | Hne]; [|contradiction].
  fold (occurrences x l).
  rewrite (map_ext_in (fun y => occurrences y (x :: l)) (fun y => occurrences y l)).
  - rewrite <- IH, <- (sum_without (fun y => occurrences y l) x).
    + reflexivity.
    + apply first_occurrences_NoDup.
    + intro Hnot. unfold occurrences. apply count_occ_not_In.
      intro Hin. apply Hnot. apply (proj2 (first_occurrences_In x l)). exact Hin.
  - intros y Hy. apply filter_In in Hy. destruct Hy as [_ Hy].
    apply negb_true_iff, String.eqb_neq in Hy.
    unfold occurrences. simpl.
    destruct (string_dec x y) as [-> | _]; [contradiction | reflexivity].
Qed.

Lemma total_tally (ts : list string) : total (tally ts) = Z.of_nat (List.length ts).
Proof.
  unfold tally.
  rewrite (total_keyed (fun t => occurrences t ts)), occurrences_add_up.
  reflexivity.
Qed.

Lemma list_tags_any (S : Type) (RS : RecordStore S) (a : object) (q : Query)
    (w : World S) (ts : list string) :
  tags_query a = inl q ->
  fst (exec q (store w)) = mkResponse (JArr (map tag_row ts)) None ->
  Forall own_only ts ->
  fst (call_tool "list_tags" (Some a) w) = tag_list (tally ts).
Proof.
  intros Hq Hr Hsafe. rewrite list_tags_run, Hq. cbv zeta. rewrite Hr.
  cbn [error data tagCounts].
  change (@nil (string * json)) with (tally []).
  rewrite (reduce_tally _ [] Hsafe). reflexivity.
Qed.

(** X6: when the store returns rows [{ tag }] whose tags name no property
    of [Object.prototype], [list_tags] answers [{ tags }] whose counts add
    up to the number of rows returned; every entry counts at least one
    row, and no row gives no entry. *)
Theorem list_tags_total (S : Type) (RS : RecordStore S) (a : object)
    (q : Query) (w : World S) (ts : list string) :
  tags_query a = inl q ->
  fst (exec q (store w)) = mkResponse (JArr (map tag_row ts)) None ->
  Forall own_only ts ->
  exists entries : list (string * json),
    fst (call_tool "list_tags" (Some a) w)
    = success
        [ ("tags",
           JArr (map (fun e => JObj [ ("tag", JStr (fst e)); ("count", snd e) ])
                     entries)) ]
    /\ total entries = Z.of_nat (List.length ts)
    /\ (forall t c, In (t, c) entries ->
                    exists n, c = JNum (Z.of_nat n) /\ 0 < n)
    /\ (ts = [] -> entries = []).
Proof.
  intros Hq Hr Hsafe. exists (Object_entries (tally ts)).
  split; [exact (list_tags_any S RS a q w ts Hq Hr Hsafe)|].
  split; [|split].
  - rewrite (total_permutation _ _ (Object_entries_permutation (tally ts))).
    apply total_tally.
  - intros t c Hin.
    apply (Permutation_in _ (Object_entries_permutation (tally ts))) in Hin.
    unfold tally in Hin. apply in_map_iff in Hin.
    destruct Hin as (x & [= -> <-] & Hx).
    exists (occurrences t ts). split; [reflexivity|].
    apply occurrences_pos. apply (proj1 (first_occurrences_In t ts)). exact Hx.
  - intros ->. reflexivity.
Qed.

Lemma list_tags_total_witness :
  exists entries : list (string * json),
    fst (call_tool "list_tags" (Some everything) four_tags)
    = success
        [ ("tags",
           JArr (map (fun e => JObj [ ("tag", JStr (fst e)); ("count", snd e) ])
                     entries)) ]
    /\ total entries = 3%Z
    /\ (forall t c, In (t, c) entries ->
                    exists n, c = JNum (Z.of_nat n) /\ 0 < n)
    /\ ([ "b"; "1"; "b" ] = [] -> entries = []).
Proof.
  apply (list_tags_total Store table_store everything (tag_scan "u1") four_tags
           [ "b"; "1"; "b" ]).
  - reflexivity.
  - reflexivity.
  - repeat constructor.
Defined.

(** ** The table across calls *)


Lemma merge_other (u k c : string) (t : option string) (m : option json)
    (now : nat) (u' k' : string) (l : list Row) :
  (u', k') <> (u, k) ->
  filter (same_key u' k') (merge u k c t m now l) = filter (same_key u' k') l.
Proof.
  intro Hne.
  assert (Hnew : forall ca ua, same_key u' k' (mkRow u k c t m ca ua) = false).
  { intros ca ua. destruct (same_key u' k' (mkRow u k c t m ca ua)) eqn:Hs;
      [|reflexivity].
    apply same_key_spec in Hs. unfold key_of in Hs; simpl in Hs. congruence. }
  induction l as [|r l IH]; simpl.
  - rewrite Hnew. reflexivity.
  - destruct (same_key u k r) eqn:Hr; simpl.
    + rewrite Hnew.
      destruct (same_key u' k' r) eqn:Hr'; [|reflexivity].
      apply same_key_spec in Hr, Hr'. congruence.
    + rewrite IH. reflexivity.
Qed.

Lemma forgotten_other (u k u' k' : string) (st : Store) :
  (u', k') <> (u, k) -> rows_of u' k' (forgotten u k st) = rows_of u' k' st.
Proof.
  intro Hne. unfold rows_of, forgotten; cbn [rows].
  induction (rows st) as [|r l IH]; simpl; [reflexivity|].
  destruct (same_key u k r) eqn:Hr; simpl.
  - destruct (same_key u' k' r) eqn:Hr'; [|exact IH].
    apply same_key_spec in Hr, Hr'. congruence.
  - rewrite IH. reflexivity.
Qed.

(** X8: on the reference store, creating or forgetting the memory of one
    pair [(user_id, key)] changes nothing for any other pair: a get call
    for another pair is answered after the call as it was before. *)
Theorem other_pairs_untouched (w : World Store) (a g : object)
    (u k c u' k' : string) :
  available (store w) ->
  own a "user_id" = str u -> own a "key" = str k -> own a "content" = str c ->
  optional_text (own a "tag") ->
  own g "user_id" = str u' -> own g "key" = str k' ->
  (u', k') <> (u, k) ->
  fst (call_tool "get_memory" (Some g)
         (snd (call_tool "create_memory" (Some a) w)))
  = fst (call_tool "get_memory" (Some g) w)
  /\ fst (call_tool "get_memory" (Some g)
            (snd (call_tool "forget_memory" (Some a) w)))
     = fst (call_tool "get_memory" (Some g) w).
Proof.
  intros Hav Hu Hk Hc Ht Hgu Hgk Hne.
  rewrite (create_memory_table a u k c w Hav Hu Hk Hc Ht).
  rewrite (forget_memory_table a u k w Hav Hu Hk). cbn [snd].
  rewrite !(get_memory_table g u' k') by (first [assumption | reflexivity]).
  cbn [fst store].
  rewrite (forgotten_other u k u' k' _ Hne).
  unfold rows_of at 1, upserted; cbn [rows].
  rewrite (merge_other u k c _ _ _ u' k' _ Hne).
  split; reflexivity.
Qed.

Lemma other_pairs_untouched_witness :
  fst (call_tool "get_memory" (Some [ ("user_id", JStr "u1"); ("key", JStr "food") ])
         (snd (call_tool "create_memory" (Some create_ramen) two_rows)))
  = fst (call_tool "get_memory"
           (Some [ ("user_id", JStr "u1"); ("key", JStr "food") ]) two_rows)
  /\ fst (call_tool "get_memory"
            (Some [ ("user_id", JStr "u1"); ("key", JStr "food") ])
            (snd (call_tool "forget_memory" (Some create_ramen) two_rows)))
     = fst (call_tool "get_memory"
              (Some [ ("user_id", JStr "u1"); ("key", JStr "food") ]) two_rows).
Proof.
  apply (other_pairs_untouched two_rows create_ramen
           [ ("user_id", JStr "u1"); ("key", JStr "food") ]
           "u1" "favorite_food" "ramen" "u1" "food"); try reflexivity.
  - right. exists "food". reflexivity.
  - discriminate.
Defined.

Lemma run_select (q : Query) (st : Store) :
  writes q = false -> snd (run q st) = st.
Proof.
  unfold writes, run. intro Hq.
  destruct (outage st); [reflexivity|].
  destruct (negb (well_formed q)); [reflexivity|].
  destruct (q_verb q); [reflexivity | discriminate | discriminate].
Qed.

(** X9: on the reference store the three reading tools leave the store as
    it was, whatever the arguments and whether the store answers or not. *)
Theorem reading_changes_nothing (name : string) (args : option object)
    (w : World Store) :
  name = "get_memory" \/ name = "list_memories" \/ name = "list_tags" ->
  store (snd (call_tool name args w)) = store w.
Proof.
  intro Hname.
  destruct (call_tool_world name args w) as [-> | (a & q & _ & Hcat & Hq & ->)];
    [reflexivity|].
  unfold after; cbn [store].
  rewrite exec_run. apply run_select.
  destruct (one_query_shape name a q Hcat Hq) as [_ Hw].
  rewrite Hw. destruct Hname as [-> | [-> | ->]]; reflexivity.
Qed.

Lemma reading_changes_nothing_witness :
  store (snd (call_tool "list_memories" (Some (search "a,b")) two_rows))
  = store two_rows.
Proof.
  apply (reading_changes_nothing "list_memories" (Some (search "a,b")) two_rows).
  right; left; reflexivity.
Defined.

Lemma list_everything (l : object) (u : string) (w : World Store) :
  available (store w) ->
  own l "user_id" = str u ->
  truthy (own l "tag") = false -> truthy (own l "search") = false ->
  fst (call_tool "list_memories" (Some l) w)
  = memories (sort newer_firstb
                (filter (fun r => (user_id r =? u)%string) (rows (store w)))).
Proof.
  intros Hav Hu Ht Hs.
  assert (Hq : list_query l = inl (scan u None None)).
  { unfold list_query. rewrite Hu, (optional_falsy _ Ht), (optional_falsy _ Hs).
    reflexivity. }
  rewrite (list_memories_table u None None l w Hq), Hav. simpl.
  rewrite (filter_ext _ (fun r => (user_id r =? u)%string)
             (fun r => andb_true_r (user_id r =? u)%string)).
  reflexivity.
Qed.

(** X10: on a working store that honours the uniqueness constraint, a
    memory just created is among the memories a list call without filters
    answers for its user, with the key and the content created, and after
    a forget call no memory listed for the user has the forgotten key. *)
Theorem listed_after_create (w : World Store) (a l : object) (u k c : string) :
  available (store w) -> unique_keys (store w) ->
  own a "user_id" = str u -> own a "key" = str k -> own a "content" = str c ->
  optional_text (own a "tag") ->
  own l "user_id" = str u ->
  truthy (own l "tag") = false -> truthy (own l "search") = false ->
  (exists (items : list json) (created_at : nat),
     fst (call_tool "list_memories" (Some l)
            (snd (call_tool "create_memory" (Some a) w)))
     = success [ ("count", JNum (Z.of_nat (List.length items)));
                 ("memories", JArr items) ]
     /\ In (JObj [ ("memory_key", JStr k);
                   ("content", JStr c);
                   ("tag", nullable JStr (written_tag a));
                   ("created_at", timestamp created_at);
                   ("updated_at", timestamp (clock (store w))) ]) items)
  /\ (exists items : list json,
        fst (call_tool "list_memories" (Some l)
               (snd (call_tool "forget_memory" (Some a) w)))
        = success [ ("count", JNum (Z.of_nat (List.length items)));
                    ("memories", JArr items) ]
        /\ forall item, In item items ->
                        member item "memory_key" <> inl (Some (JStr k))).
Proof.
  intros Hav Hnd Hu Hk Hc Ht Hlu Hlt Hls. split.
  - rewrite (create_memory_table a u k c w Hav Hu Hk Hc Ht). cbn [snd].
    rewrite (list_everything l u) by first [assumption | reflexivity].
    cbn [store]. unfold memories. rewrite <- (length_map listed).
    eexists _, (created u k (clock (store w)) (rows (store w))).
    split; [reflexivity|].
    apply (in_map listed _
             (mkRow u k c (written_tag a) (written_metadata a)
                    (created u k (clock (store w)) (rows (store w)))
                    (clock (store w)))).
    apply sort_In, filter_In. split; [|apply String.eqb_refl].
    pose proof (upserted_rows_of a u k c _ Hnd) as Hrow.
    assert (Hin : In (mkRow u k c (written_tag a) (written_metadata a)
                        (created u k (clock (store w)) (rows (store w)))
                        (clock (store w)))
                     (rows_of u k (upserted a u k c (store w))))
      by (rewrite Hrow; left; reflexivity).
    apply filter_In in Hin. apply Hin.
  - rewrite (forget_memory_table a u k w Hav Hu Hk). cbn [snd].
    rewrite (list_everything l u) by first [assumption | reflexivity].
    cbn [store]. unfold memories. rewrite <- (length_map listed).
    eexists. split; [reflexivity|].
    intros item Hitem. apply in_map_iff in Hitem.
    destruct Hitem as (r & <- & Hin).
    apply sort_In, filter_In in Hin. destruct Hin as [Hin Hur].
    unfold forgotten in Hin; cbn [rows] in Hin.
    apply filter_In in Hin. destruct Hin as [_ Hkey].
    apply negb_true_iff in Hkey. unfold same_key in Hkey.
    rewrite Hur in Hkey. simpl in Hkey.
    apply String.eqb_neq in Hkey.
    intros [= Heq]. exact (Hkey Heq).
Qed.

Lemma listed_after_create_witness :
  rows_of "u1" "food" (store two_rows) = [ food ]
  /\ (exists (items : list json) (created_at : nat),
        fst (call_tool "list_memories" (Some everything)
               (snd (call_tool "create_memory" (Some create_food) two_rows)))
        = success [ ("count", JNum (Z.of_nat (List.length items)));
                    ("memories", JArr items) ]
        /\ In (JObj [ ("memory_key", JStr "food");
                      ("content", JStr "ramen");
                      ("tag", nullable JStr (written_tag create_food));
                      ("created_at", timestamp created_at);
                      ("updated_at", timestamp (clock (store two_rows))) ]) items)
  /\ (exists items : list json,
        fst (call_tool "list_memories" (Some everything)
               (snd (call_tool "forget_memory" (Some create_food) two_rows)))
        = success [ ("count", JNum (Z.of_nat (List.length items)));
                    ("memories", JArr items) ]
        /\ forall item, In item items ->
                        member item "memory_key" <> inl (Some (JStr "food"))).
Proof.
  split; [reflexivity|].
  apply (listed_after_create two_rows create_food everything
           "u1" "food" "ramen"); try reflexivity.
  - repeat constructor; simpl; intuition discriminate.
  - right. exists "food". reflexivity.
Defined.

(** After the create call the memory of key food comes first, and after
    the forget call the memory of key path is the only one listed. *)
Lemma listed_after_create_example :
  fst (call_tool "list_memories" (Some everything)
         (snd (call_tool "create_memory" (Some create_food) two_rows)))
  = memories [ mkRow "u1" "food" "ramen" (Some "food") None 0 2; path ]
  /\ fst (call_tool "list_memories" (Some everything)
            (snd (call_tool "forget_memory" (Some create_food) two_rows)))
     = memories [ path ].
Proof. vm_compute. split; reflexivity. Qed.
